(** * Heat-loss analysis of a rotary kiln (heat_simulation_IQR.py)

    A shallow embedding of the numeric core of the script: the [Kiln]
    class (reading aggregation, radiation and convection losses) and the
    outlier / repair-economics computation of the main body.

    Numbers.  The script computes with binary64 floats, through pandas
    and numpy.  Here a float is a value of [fval]: the three special
    values NaN, -inf and +inf are kept, and a finite float is an exact
    real number.  Rounding, overflow and the sign of zero are not
    modelled.

    Tables.  The analysis works on a table of floats ([frame]).  The
    uploaded sheet, whose cells may also hold text, is a [sheet]; the call
    of the constructor on it, with the Python errors it can end in, is
    [Kiln_init_outcome]. *)

From Stdlib Require Import String Reals Lra Lia ZArith List Bool Machin
  Permutation.
Import ListNotations.

#[local] Open Scope R_scope.

(** ** Float values *)

Inductive fval : Type :=
| NaN
| NInf
| PInf
| Fin (r : R).

(** [+inf * r] for a finite [r]. *)
Definition inf_times (r : R) : fval :=
  if Rlt_dec 0 r then PInf else if Rlt_dec r 0 then NInf else NaN.

Definition fneg (x : fval) : fval :=
  match x with
  | NaN => NaN
  | NInf => PInf
  | PInf => NInf
  | Fin r => Fin (- r)
  end.

Definition fadd (x y : fval) : fval :=
  match x, y with
  | NaN, _ | _, NaN => NaN
  | PInf, NInf | NInf, PInf => NaN
  | PInf, _ | _, PInf => PInf
  | NInf, _ | _, NInf => NInf
  | Fin a, Fin b => Fin (a + b)
  end.

Definition fsub (x y : fval) : fval := fadd x (fneg y).

Definition fmul (x y : fval) : fval :=
  match x, y with
  | NaN, _ | _, NaN => NaN
  | Fin a, Fin b => Fin (a * b)
  | PInf, Fin r | Fin r, PInf => inf_times r
  | NInf, Fin r | Fin r, NInf => inf_times (- r)
  | PInf, PInf | NInf, NInf => PInf
  | PInf, NInf | NInf, PInf => NInf
  end.

(** Element-wise division as numpy does it: no exception on a zero
    divisor, but an infinity or NaN. *)
Definition fdiv (x y : fval) : fval :=
  match x, y with
  | NaN, _ | _, NaN => NaN
  | Fin a, Fin b => if Req_dec_T b 0 then inf_times a else Fin (a / b)
  | Fin _, (PInf | NInf) => Fin 0
  | PInf, Fin b => if Rlt_dec b 0 then NInf else PInf
  | NInf, Fin b => if Rlt_dec b 0 then PInf else NInf
  | (PInf | NInf), (PInf | NInf) => NaN
  end.

(** [x < y]; every comparison with NaN is false. *)
Definition flt (x y : fval) : bool :=
  match x, y with
  | NaN, _ | _, NaN => false
  | Fin a, Fin b => if Rlt_dec a b then true else false
  | _, NInf => false
  | NInf, _ => true
  | PInf, _ => false
  | Fin _, PInf => true
  end.

Definition fgt (x y : fval) : bool := flt y x.

(** [x ** 4], an integer exponent: defined on negative bases too. *)
Definition fpow4 (x : fval) : fval :=
  match x with
  | NaN => NaN
  | NInf | PInf => PInf
  | Fin r => Fin (r ^ 4)
  end.

(** [x ** y] of a pandas column for a float exponent [y] that is not an
    integer (the script uses -0.724, 1.333 and -0.351): numpy's [power]
    gives NaN on a negative base, silently. *)
Definition fpow (x : fval) (y : R) : fval :=
  match x with
  | NaN => NaN
  | NInf | PInf => if Rlt_dec 0 y then PInf else Fin 0
  | Fin r =>
      if Rlt_dec 0 r then Fin (Rpower r y)
      else if Rlt_dec r 0 then NaN
      else if Rlt_dec 0 y then Fin 0 else PInf
  end.

Definition is_nan (x : fval) : bool :=
  match x with NaN => true | _ => false end.

(** ** The [Kiln] class *)

Definition STEFAN_BOLTZMANN_CONSTANT : R := 567 / 100 * / 10 ^ 8.

Inductive unit_tag : Type := Celsius | Kelvin.

(** The table read from the spreadsheet: [columns_count] columns, one
    list of cells per row; an empty cell is NaN. *)
Record frame : Type := {
  columns_count : nat;
  rows : list (list fval)
}.

(** The script's [Kiln] object.  [df_length] and [df_temp] are the two
    columns the constructor adds to the table. *)
Record Kiln : Type := {
  diameter : R;
  ambient_velocity : R;
  ambient_temp : R;
  emissivity : R;
  interval : Z;
  section_area : R;
  df_length : list Z;
  df_temp : list fval
}.

(** pandas' [sum]: NaN entries are skipped, an empty sum is 0. *)
Definition skipna_sum (l : list fval) : fval :=
  fold_left fadd (filter (fun x => negb (is_nan x)) l) (Fin 0).

(** [i for i in range(interval, interval*rows_count+1, interval)], for
    the positive [interval] the slider gives. *)
Definition lengths (interval : Z) (rows_count : nat) : list Z :=
  map (fun i => (interval * Z.of_nat i)%Z) (seq 1 rows_count).

Definition to_kelvin (u : unit_tag) (x : fval) : fval :=
  match u with Kelvin => x | Celsius => fadd x (Fin 273) end.

Definition average (f : frame) : list fval :=
  map (fun row => fdiv (skipna_sum row) (Fin (INR (columns_count f))))
      (rows f).

Definition Kiln_init (diameter ambient_velocity ambient_temp : R)
    (temp_unit : unit_tag) (emissivity : R) (interval : Z) (df : frame)
    : Kiln :=
  {| diameter := diameter;
     ambient_velocity := ambient_velocity;
     ambient_temp :=
       match temp_unit with
       | Kelvin => ambient_temp
       | Celsius => ambient_temp + 273
       end;
     emissivity := emissivity;
     interval := interval;
     section_area := PI * diameter * IZR interval;
     df_length := lengths interval (length (rows df));
     df_temp := map (to_kelvin temp_unit) (average df) |}.

(** The length of Python's [range(start, stop, step)] and its elements;
    a zero step raises ValueError in Python and is given no element here. *)
Definition range_len (start stop step : Z) : nat :=
  if (0 <? step)%Z
  then if (start <? stop)%Z then Z.to_nat ((stop - start - 1) / step + 1) else 0
  else if (step <? 0)%Z
       then if (stop <? start)%Z
            then Z.to_nat ((start - stop - 1) / (- step) + 1) else 0
       else 0.

Definition py_range (start stop step : Z) : list Z :=
  map (fun n => (start + step * Z.of_nat n)%Z) (seq 0 (range_len start stop step)).

(** *** The constructor on the sheet as uploaded

    A cell read by [pd.read_excel] is a number (an empty cell is NaN) or a
    text; cells holding dates or truth values are not modelled.  The
    script checks nothing and defines no exception of its own: the
    constructor fails when pandas or Python raise.  On a table with a
    text cell the row sums are the ones of pandas 2, whose [sum] keeps the
    non-numeric columns: the rows are added up as Python objects. *)

Inductive cell_value : Type :=
  | Number (x : fval)
  | Text (s : string).

Record sheet : Type := {
  sheet_columns : nat;
  sheet_rows : list (list cell_value)
}.

Inductive py_error : Type := TypeError | ValueError.

Inductive outcome (A : Type) : Type :=
  | Returned (a : A)
  | Raised (e : py_error).

Arguments Returned {A} a.
Arguments Raised {A} e.

Definition bind {A B : Type} (m : outcome A) (f : A -> outcome B) : outcome B :=
  match m with
  | Returned a => f a
  | Raised e => Raised e
  end.

Notation "x <- m ;; k" := (bind m (fun x => k))
  (at level 61, m at next level, right associativity).

Fixpoint for_each {A B : Type} (f : A -> outcome B) (l : list A)
    : outcome (list B) :=
  match l with
  | [] => Returned []
  | a :: rest => b <- f a;; bs <- for_each f rest;; Returned (b :: bs)
  end.

Definition is_text (c : cell_value) : bool :=
  match c with Text _ => true | Number _ => false end.

(** Some cell of the table is a text: the table has a column of dtype
    [object]. *)
Definition has_text (df : sheet) : bool :=
  existsb (existsb is_text) (sheet_rows df).

Definition number_of (c : cell_value) : fval :=
  match c with Number x => x | Text _ => NaN end.

(** The table of floats of a sheet without text cells. *)
Definition frame_of (df : sheet) : frame :=
  {| columns_count := sheet_columns df;
     rows := map (map number_of) (sheet_rows df) |}.

(** Python's [+] on two cells: numbers add, texts concatenate, a number
    and a text raise TypeError. *)
Definition py_add (a b : cell_value) : outcome cell_value :=
  match a, b with
  | Number x, Number y => Returned (Number (fadd x y))
  | Text s, Text s' => Returned (Text (s ++ s'))
  | _, _ => Raised TypeError
  end.

(** Python's [/] of a row sum by the number of columns. *)
Definition py_div (a : cell_value) (n : nat) : outcome fval :=
  match a with
  | Number x => Returned (fdiv x (Fin (INR n)))
  | Text _ => Raised TypeError
  end.

(** [skipna]: an empty cell counts as 0 in the sum. *)
Definition skipna_fill (c : cell_value) : cell_value :=
  match c with
  | Number NaN => Number (Fin 0)
  | _ => c
  end.

Fixpoint object_fold (acc : cell_value) (row : list cell_value)
    : outcome cell_value :=
  match row with
  | [] => Returned acc
  | c :: rest => a <- py_add acc c;; object_fold a rest
  end.

(** The sum of a row of objects, from left to right. *)
Definition object_sum (row : list cell_value) : outcome cell_value :=
  match map skipna_fill row with
  | [] => Returned (Number (Fin 0))
  | c :: rest => object_fold c rest
  end.

(** [df[list(df.columns)].sum(axis=1)/columns_count]. *)
Definition sheet_average (df : sheet) : outcome (list fval) :=
  if has_text df
  then sums <- for_each object_sum (sheet_rows df);;
       for_each (fun s => py_div s (sheet_columns df)) sums
  else Returned (average (frame_of df)).

(** The call [Kiln(...)] on the uploaded sheet, with the errors it can
    raise: the row averages, then the length column ([range] raises
    ValueError on a zero step, [df.insert] when the column does not have
    one entry per row). *)
Definition Kiln_init_outcome (diameter ambient_velocity ambient_temp : R)
    (temp_unit : unit_tag) (emissivity : R) (interval : Z) (df : sheet)
    : outcome Kiln :=
  avg <- sheet_average df;;
  let rows_count := length (sheet_rows df) in
  if (interval =? 0)%Z then Raised ValueError
  else
    let length_values :=
      py_range interval (interval * Z.of_nat rows_count + 1) interval in
    if (length length_values =? rows_count)%nat
    then Returned
           {| diameter := diameter;
              ambient_velocity := ambient_velocity;
              ambient_temp :=
                match temp_unit with
                | Kelvin => ambient_temp
                | Celsius => ambient_temp + 273
                end;
              emissivity := emissivity;
              interval := interval;
              section_area := PI * diameter * IZR interval;
              df_length := length_values;
              df_temp := map (to_kelvin temp_unit) avg |}
    else Raised ValueError.

Definition radiation (k : Kiln) (tempcol : list fval) : list fval :=
  map (fun T =>
         fmul (Fin (emissivity k * section_area k * STEFAN_BOLTZMANN_CONSTANT))
              (fsub (fpow4 T) (Fin (ambient_temp k ^ 4))))
      tempcol.

Definition natural_convection (k : Kiln) (T : fval) : fval :=
  fmul (fmul (Fin (8033 / 100))
             (fmul (fpow (fdiv (fadd T (Fin (ambient_temp k))) (Fin 2))
                         (- (724 / 1000)))
                   (fpow (fsub T (Fin (ambient_temp k))) (1333 / 1000))))
       (Fin (section_area k)).

(** The scalar factors [ambient_velocity**0.805] and [diameter**-0.195]
    are Python float powers of positive numbers (the velocity is at least
    3 on this branch, the diameter widget starts at 0.01). *)
Definition forced_convection (k : Kiln) (T : fval) : fval :=
  fmul (fmul (fmul (fmul (fmul (Fin (2803 / 100))
                               (fpow (fmul T (Fin (ambient_temp k)))
                                     (- (351 / 1000))))
                         (Fin (Rpower (ambient_velocity k) (805 / 1000))))
                   (Fin (Rpower (diameter k) (- (195 / 1000)))))
             (fsub T (Fin (ambient_temp k))))
       (Fin (section_area k)).

Definition convection (k : Kiln) (tempcol : list fval) : list fval :=
  if Rlt_dec (ambient_velocity k) 3
  then map (natural_convection k) tempcol
  else map (forced_convection k) tempcol.

(** ** Series helpers (pandas) *)

Definition dropna (l : list fval) : list fval :=
  filter (fun x => negb (is_nan x)) l.

(** [x <= y] on values that are not NaN. *)
Definition fle (x y : fval) : bool := negb (flt y x).

Fixpoint insert_sorted (x : fval) (l : list fval) : list fval :=
  match l with
  | [] => [x]
  | y :: l' => if fle x y then x :: l else y :: insert_sorted x l'
  end.

Definition sort (l : list fval) : list fval :=
  fold_right insert_sorted [] l.

(** [Series.quantile(q)]: NaN entries are dropped and the rest goes to
    numpy's percentile with linear interpolation: the two order statistics
    around position [q * (Nx - 1)], weighted by the distance to it. *)
Definition quantile (s : list fval) (q : R) : fval :=
  let ap := sort (dropna s) in
  match ap with
  | [] => NaN
  | _ :: _ =>
      let Nx := length ap in
      let indices := q * INR (Nx - 1) in
      let indices_below := Z.to_nat (Zfloor indices) in
      let indices_above := Nat.min (indices_below + 1) (Nx - 1) in
      let weights_above := indices - INR indices_below in
      let weights_below := 1 - weights_above in
      fadd (fmul (nth indices_below ap NaN) (Fin weights_below))
           (fmul (nth indices_above ap NaN) (Fin weights_above))
  end.

(** [Series.median()]: NaN entries are dropped; the middle value, or the
    mean of the two middle values. *)
Definition median (s : list fval) : fval :=
  let a := sort (dropna s) in
  let n := length a in
  match n with
  | O => NaN
  | _ =>
      if Nat.even n
      then fdiv (fadd (nth (n / 2 - 1) a NaN) (nth (n / 2) a NaN)) (Fin 2)
      else nth (n / 2) a NaN
  end.

(** A column with its index labels, as [iteritems] yields it. *)
Definition iteritems (col : list fval) : list (nat * fval) :=
  combine (seq 0 (length col)) col.

(** [Series.drop(labels)] on a labelled column.  pandas raises KeyError
    for a label that is not in the column; the script drops the high and
    then the low outliers, which are labels of the table and disjoint. *)
Definition drop (labels : list nat) (s : list (nat * fval))
    : list (nat * fval) :=
  filter (fun p => negb (existsb (Nat.eqb (fst p)) labels)) s.

(** [df.loc[index, col] = v] for a label of the table (the script writes
    at high-outlier labels only, which are rows of the table). *)
Fixpoint loc_set (index : nat) (v : fval) (col : list fval) : list fval :=
  match col, index with
  | [], _ => []
  | _ :: rest, O => v :: rest
  | x :: rest, S i => x :: loc_set i v rest
  end.

(** ** The main body *)

Section Analysis.

Variable kiln : Kiln.
Variable clinker_production : R.

Definition per_kg (col : list fval) : list fval :=
  map (fun x => fdiv x (Fin clinker_production)) col.

Definition loss_of (tempcol : list fval) : list fval :=
  map (fun p => fadd (fst p) (snd p))
      (combine (per_kg (radiation kiln tempcol))
               (per_kg (convection kiln tempcol))).

Definition df_radiation : list fval := per_kg (radiation kiln (df_temp kiln)).
Definition df_convection : list fval := per_kg (convection kiln (df_temp kiln)).
Definition df_total_loss : list fval := loss_of (df_temp kiln).
Definition total_loss : fval := skipna_sum df_total_loss.

End Analysis.

(** The outlier thresholds of a column of losses. *)
Section Outliers.

Variable losses : list fval.

Definition Q1 : fval := quantile losses (25 / 100).
Definition Q3 : fval := quantile losses (75 / 100).
Definition IQR : fval := fsub Q3 Q1.
Definition upper_whisker : fval := fadd Q3 (fmul (Fin (15 / 10)) IQR).
Definition lower_whisker : fval := fsub Q1 (fmul (Fin (15 / 10)) IQR).

(** The loop over [iteritems]: both tests run on every row. *)
Fixpoint outlier_loop (items : list (nat * fval)) (high low : list nat)
    : list nat * list nat :=
  match items with
  | [] => (high, low)
  | (index, loss) :: rest =>
      let high' := if fgt loss upper_whisker then high ++ [index] else high in
      let low' := if flt loss lower_whisker then low ++ [index] else low in
      outlier_loop rest high' low'
  end.

Definition high_outliers : list nat := fst (outlier_loop (iteritems losses) [] []).
Definition low_outliers : list nat := snd (outlier_loop (iteritems losses) [] []).

End Outliers.

(** ** Repair economics *)

Definition WORKING_DAYS_PER_YEAR : R := 330.
Definition COAL_CALORIFIC_VALUE : R := 4500.
Definition COAL_COST_PER_TON : R := 4500.
Definition RINGS_PER_METER : Z := 5.
Definition SHELL_THICKNESS : R := 16.
Definition BRICK_HEIGHT : R := 220.
Definition BRICK_COST : Z := 100.

Definition money_saved_per_year (savings : fval) (clinker_production : R)
    : fval :=
  let savings_per_hour := fmul savings (Fin clinker_production) in
  let working_hours_per_year := WORKING_DAYS_PER_YEAR * 24 in
  let savings_per_year := fmul savings_per_hour (Fin working_hours_per_year) in
  let coal_saved_per_year := fdiv savings_per_year (Fin COAL_CALORIFIC_VALUE) in
  let coal_saved_per_year_tons := fdiv coal_saved_per_year (Fin 1000) in
  fmul coal_saved_per_year_tons (Fin COAL_COST_PER_TON).

Definition internal_diameter (diameter : R) : R :=
  diameter * 1000 - 2 * SHELL_THICKNESS.

Definition bricks_per_ring (diameter : R) : Z :=
  Zfloor (314 / 100 * (internal_diameter diameter - BRICK_HEIGHT) / (715 / 10)).

Definition repair_cost (diameter : R) (kiln_length_damaged : nat) : Z :=
  let bricks_per_meter := (bricks_per_ring diameter * RINGS_PER_METER)%Z in
  let bricks_damaged_count := (bricks_per_meter * Z.of_nat kiln_length_damaged)%Z in
  (bricks_damaged_count * BRICK_COST)%Z.

(** What the script shows at the end of a run. *)
Inductive report : Type :=
| NoHighOutliers (total : fval) (low : list nat)
| Summary (total : fval) (low high : list nat)
          (savings savings_per_year_rupees : fval)
| SomethingIsWrong (total new_total : fval).

Section Repair.

Variable kiln : Kiln.
Variable clinker_production : R.

Let losses : list fval := df_total_loss kiln clinker_production.
Let high : list nat := high_outliers losses.
Let low : list nat := low_outliers losses.

Definition mediantemp : fval :=
  median (map snd (drop low (drop high (iteritems (df_temp kiln))))).

Definition df_new_temp : list fval :=
  fold_left (fun col index => loc_set index mediantemp col) high (df_temp kiln).

Definition df_new_radiation : list fval :=
  per_kg clinker_production (radiation kiln df_new_temp).
Definition df_new_convection : list fval :=
  per_kg clinker_production (convection kiln df_new_temp).
Definition df_new_total_loss : list fval :=
  loss_of kiln clinker_production df_new_temp.
Definition new_total_loss : fval := skipna_sum df_new_total_loss.

Definition savings : fval :=
  fsub (total_loss kiln clinker_production) new_total_loss.

Definition savings_per_year_rupees : fval :=
  fsub (money_saved_per_year savings clinker_production)
       (Fin (IZR (repair_cost (diameter kiln) (length high)))).

Definition analyse : report :=
  match high with
  | _ :: _ =>
      if fgt savings (Fin 0)
      then Summary (total_loss kiln clinker_production) low high
                   savings savings_per_year_rupees
      else SomethingIsWrong (total_loss kiln clinker_production) new_total_loss
  | [] => NoHighOutliers (total_loss kiln clinker_production) low
  end.

End Repair.

(** * Auxiliary definitions *)

(** Lists in increasing order. *)
Inductive sorted : list fval -> Prop :=
| sorted_nil : sorted []
| sorted_one x : sorted [x]
| sorted_cons x y l : fle x y = true -> sorted (y :: l) -> sorted (x :: y :: l).

(** The interpolation step of [quantile], and [quantile] on a list that
    is already sorted and free of NaN. *)
Definition lerp (a b : fval) (w : R) : fval :=
  fadd (fmul a (Fin (1 - w))) (fmul b (Fin w)).

Definition at_position (ap : list fval) (q : R) : fval :=
  let Nx := length ap in
  let indices := q * INR (Nx - 1) in
  let indices_below := Z.to_nat (Zfloor indices) in
  let indices_above := Nat.min (indices_below + 1) (Nx - 1) in
  let weights_above := indices - INR indices_below in
  lerp (nth indices_below ap NaN) (nth indices_above ap NaN) weights_above.

(** The losses of one row. *)
Definition radiation_at (k : Kiln) (T : fval) : fval :=
  fmul (Fin (emissivity k * section_area k * STEFAN_BOLTZMANN_CONSTANT))
       (fsub (fpow4 T) (Fin (ambient_temp k ^ 4))).

Definition convection_at (k : Kiln) (T : fval) : fval :=
  if Rlt_dec (ambient_velocity k) 3
  then natural_convection k T
  else forced_convection k T.

Definition loss_at (k : Kiln) (c : R) (T : fval) : fval :=
  fadd (fdiv (radiation_at k T) (Fin c)) (fdiv (convection_at k T) (Fin c)).

(** An index label is kept by [drop] when it is in neither list. *)
Definition kept (high low : list nat) (p : nat * fval) : bool :=
  negb (existsb (Nat.eqb (fst p)) high) && negb (existsb (Nat.eqb (fst p)) low).

(** The loss of a row as a real number, for a finite reading above the
    ambient temperature, in the natural regime. *)
Definition natural_factor (Ta T : R) : R :=
  Rpower ((T + Ta) / 2) (- (724 / 1000)) * Rpower (T - Ta) (1333 / 1000).

Definition natural_loss (k : Kiln) (c T : R) : R :=
  emissivity k * section_area k * STEFAN_BOLTZMANN_CONSTANT
    * (T ^ 4 - ambient_temp k ^ 4) / c
  + 8033 / 100 * natural_factor (ambient_temp k) T * section_area k / c.

(** A spreadsheet with one column of readings. *)
Definition readings (temps : list R) : frame :=
  {| columns_count := 1; rows := map (fun t => [Fin t]) temps |}.

(** The kiln of the scenarios: diameter 4.75 m, ambient velocity 1 m/s,
    ambient temperature 302 K, emissivity 0.77, interval 1 m. *)
Definition kiln_with (temps : list R) : Kiln :=
  Kiln_init (475 / 100) 1 302 Kelvin (77 / 100) 1 (readings temps).

(** The clinker production of the scenarios, kg/hr. *)
Definition production : R := 290000.

(** The loss of a row is the section area over the production rate,
    times a term that depends on the temperature only. *)
Definition shape (T : R) : R :=
  77 / 100 * STEFAN_BOLTZMANN_CONSTANT * (T ^ 4 - 302 ^ 4)
  + 8033 / 100 * natural_factor 302 T.

(** Four readings of 400 K and one of 405 K. *)
Definition small_spot : Kiln := kiln_with [400; 400; 400; 400; 405].

Definition loss400 : R := natural_loss small_spot production 400.
Definition loss405 : R := natural_loss small_spot production 405.

(** The same readings on a kiln of diameter 12 m. *)
Definition wide_spot : Kiln :=
  Kiln_init 12 1 302 Kelvin (77 / 100) 1 (readings [400; 400; 400; 400; 405]).

Definition wide400 : R := natural_loss wide_spot production 400.
Definition wide405 : R := natural_loss wide_spot production 405.

(** The bricks of a ring as the specification words it, with the exact
    constant pi. *)
Definition spec_bricks_per_ring (diameter : R) : Z :=
  Zfloor (PI * (diameter * 1000 - 2 * 16 - 220) / (715 / 10)).

Definition spec_repair_cost (diameter : R) (high_count : nat) : Z :=
  (spec_bricks_per_ring diameter * 5 * Z.of_nat high_count * 100)%Z.

(** The scenario of the specification. *)
Definition scenario : Kiln := kiln_with [400; 405; 410; 500; 415].

Definition scenario_loss (T : R) : R := natural_loss scenario production T.

(** One reading, 2 K below the ambient temperature. *)
Definition cold_reading : Kiln := kiln_with [300].

(** A table with two rows and no columns, and the empty table of an empty
    sheet. *)
Definition no_columns : sheet := {| sheet_columns := 0; sheet_rows := [[]; []] |}.
Definition empty_table : sheet := {| sheet_columns := 0; sheet_rows := [] |}.

(** Two columns of readings, with a remark typed into one cell. *)
Definition with_remark : sheet :=
  {| sheet_columns := 2;
     sheet_rows := [[Number (Fin 400); Number (Fin 402)];
                    [Number (Fin 410); Text "n/a"]] |}.

(** The loss of a row as a real number in the forced regime. *)
Definition forced_loss (k : Kiln) (c T : R) : R :=
  emissivity k * section_area k * STEFAN_BOLTZMANN_CONSTANT
    * (T ^ 4 - ambient_temp k ^ 4) / c
  + 2803 / 100 * Rpower (T * ambient_temp k) (- (351 / 1000))
    * Rpower (ambient_velocity k) (805 / 1000)
    * Rpower (diameter k) (- (195 / 1000))
    * (T - ambient_temp k) * section_area k / c.

(** A kiln in the forced regime (ambient velocity 3 m/s) with a first
    reading of 0 K. *)
Definition frozen : Kiln :=
  Kiln_init (475 / 100) 3 302 Kelvin (77 / 100) 1
            (readings [0; 400; 400; 400; 1000]).

Definition frozen400 : R := forced_loss frozen production 400.
Definition frozen1000 : R := forced_loss frozen production 1000.

(** ** Definitions for the further properties *)

(** Three readings at the ambient temperature. *)
Definition at_ambient : Kiln := kiln_with [302; 302; 302].

(** The loss of a row as a real number, in the regime of the kiln. *)
Definition regime_loss (k : Kiln) (c T : R) : R :=
  if Rlt_dec (ambient_velocity k) 3
  then natural_loss k c T
  else forced_loss k c T.

(** Three Celsius readings taken every 2 m. *)
Definition celsius_kiln : Kiln :=
  Kiln_init (475 / 100) 1 29 Celsius (77 / 100) 2 (readings [100; 120; 90]).

(** A spreadsheet cell: a number, or empty. *)
Definition cell (o : option R) : fval :=
  match o with Some x => Fin x | None => NaN end.

(** The sum of the numbers of a row, empty cells left out. *)
Fixpoint present_sum (row : list (option R)) : R :=
  match row with
  | [] => 0
  | Some x :: rest => x + present_sum rest
  | None :: rest => present_sum rest
  end.

(** Two columns, one cell of the first row empty. *)
Definition with_gap : frame :=
  {| columns_count := 2; rows := [[Fin 400; NaN]; [Fin 400; Fin 410]] |}.

(** The sum of the finite values of a column. *)
Fixpoint finite_total (l : list fval) : R :=
  match l with
  | [] => 0
  | Fin x :: rest => x + finite_total rest
  | _ :: rest => finite_total rest
  end.

(** A loss after the repair, against the loss before: the same, a smaller
    one, or no value in place of a positive one. *)
Definition lowered (old new : fval) : Prop :=
  exists a, old = Fin a /\
            ((exists b, new = Fin b /\ b < a) \/ (new = NaN /\ 0 < a)).

Definition not_raised (old new : fval) : Prop :=
  old = new \/ lowered old new.

(** ** Ranges of ordinary runs

    The properties below that speak of finite values and of strict
    comparisons are stated for runs in these ranges, where the figures stay
    far from the overflow, the underflow and the last-digit rounding of
    floats. *)

(** The configuration as the input widgets bound it, with an ambient
    temperature of at least 1 K. *)
Definition in_widget_ranges (k : Kiln) : Prop :=
  1 / 100 <= diameter k <= 100 /\
  0 <= ambient_velocity k <= 100 /\
  1 <= ambient_temp k <= 1000 /\
  0 <= emissivity k <= 1 /\
  1 / 100 <= section_area k <= 10000.

(** The clinker production as its input widget bounds it. *)
Definition production_in_range (c : R) : Prop := 1 / 100 <= c <= 100000000.

(** Two readings are equal or at least 0.01 K apart. *)
Definition separated (ts : list R) : Prop :=
  forall a b, In a ts -> In b ts ->
              a = b \/ a + 1 / 100 <= b \/ b + 1 / 100 <= a.

(** * Properties *)

(** ** Order on float values *)

Ltac rdec :=
  repeat match goal with
         | |- context [Rlt_dec ?a ?b] => destruct (Rlt_dec a b)
         | |- context [Req_dec_T ?a ?b] => destruct (Req_dec_T a b)
         | H : context [Rlt_dec ?a ?b] |- _ => destruct (Rlt_dec a b)
         | H : context [Req_dec_T ?a ?b] |- _ => destruct (Req_dec_T a b)
         end.

Ltac fsolve :=
  unfold fle, fgt, flt, fsub, fadd, fneg, fmul, fdiv, inf_times, is_nan in *;
  rdec; try discriminate; try congruence; try reflexivity; try lra.

Lemma flt_Fin a b : flt (Fin a) (Fin b) = true <-> a < b.
Proof. unfold flt; destruct (Rlt_dec a b); split; intros; try discriminate; auto; lra. Qed.

Lemma flt_trans x y z : flt x y = true -> flt y z = true -> flt x z = true.
Proof. destruct x, y, z; simpl; intros; fsolve. Qed.

Lemma flt_irrefl x : flt x x = false.
Proof. destruct x; fsolve. Qed.

Lemma fle_refl x : fle x x = true.
Proof. unfold fle; now rewrite flt_irrefl. Qed.

Lemma fle_trans x y z :
  is_nan y = false -> fle x y = true -> fle y z = true -> fle x z = true.
Proof. destruct x, y, z; simpl; intros; fsolve. Qed.

Lemma fle_total x y : fle x y = false -> fle y x = true.
Proof. destruct x, y; simpl; intros; fsolve. Qed.

Lemma flt_fle_trans x y z :
  flt x y = true -> fle y z = true -> is_nan z = false -> flt x z = true.
Proof. destruct x, y, z; simpl; intros; fsolve. Qed.

(** ** Sorting *)

#[local] Hint Constructors sorted : core.

Lemma insert_sorted_sorted x l : sorted l -> sorted (insert_sorted x l).
Proof.
  induction 1 as [| y | y z l Hyz Hs IH]; simpl.
  - auto.
  - destruct (fle x y) eqn:E; auto using fle_total.
  - destruct (fle x y) eqn:E; auto.
    simpl in IH. destruct (fle x z) eqn:E'; auto using fle_total.
Qed.

Lemma sort_sorted l : sorted (sort l).
Proof. induction l; simpl; auto using insert_sorted_sorted. Qed.

Lemma insert_sorted_In x y l : In y (insert_sorted x l) <-> y = x \/ In y l.
Proof.
  induction l as [| z l IH]; simpl.
  - intuition.
  - destruct (fle x z); simpl; rewrite ?IH; intuition.
Qed.

Lemma sort_In y l : In y (sort l) <-> In y l.
Proof.
  induction l as [| x l IH]; simpl; [tauto |].
  rewrite insert_sorted_In, IH; intuition.
Qed.

Lemma insert_sorted_length x l : length (insert_sorted x l) = S (length l).
Proof. induction l as [| z l IH]; simpl; auto. destruct (fle x z); simpl; auto. Qed.

Lemma sort_length l : length (sort l) = length l.
Proof. induction l; simpl; auto. now rewrite insert_sorted_length, IHl. Qed.

Lemma dropna_In x l : In x (dropna l) <-> In x l /\ is_nan x = false.
Proof. unfold dropna; rewrite filter_In, negb_true_iff; tauto. Qed.

Lemma sorted_tail x l : sorted (x :: l) -> sorted l.
Proof. inversion 1; auto. Qed.

Lemma sorted_head_le x l :
  sorted (x :: l) -> (forall y, In y (x :: l) -> is_nan y = false) ->
  forall y, In y l -> fle x y = true.
Proof.
  revert x; induction l as [| z l IH]; intros x Hs Hn y Hy; [easy |].
  inversion Hs; subst.
  destruct Hy as [-> | Hy]; auto.
  apply fle_trans with z; auto.
  - apply Hn; simpl; auto.
  - apply IH; auto. intros; apply Hn; simpl in *; tauto.
Qed.

Lemma sorted_nth l :
  sorted l -> (forall y, In y l -> is_nan y = false) ->
  forall i j, (i <= j < length l)%nat -> fle (nth i l NaN) (nth j l NaN) = true.
Proof.
  induction l as [| x l IH]; intros Hs Hn i j Hij; simpl in *; [lia |].
  destruct i, j; try lia.
  - apply fle_refl.
  - apply (sorted_head_le x l Hs); [intros; apply Hn; auto |].
    apply nth_In; lia.
  - apply IH; eauto using sorted_tail. lia.
Qed.

(** ** Linear interpolation and quantiles *)

Lemma lerp_between a b w :
  is_nan a = false -> is_nan b = false -> fle a b = true -> 0 <= w < 1 ->
  is_nan (lerp a b w) = false ->
  fle a (lerp a b w) = true /\ fle (lerp a b w) b = true.
Proof.
  unfold lerp; intros Ha Hb Hab Hw Hv.
  destruct a, b; simpl in *; try discriminate;
    unfold inf_times in *; rdec; simpl in *; try discriminate; try lra;
    unfold fle, flt in *; rdec; try discriminate; auto; try nra.
Qed.

Lemma lerp_mono a b w1 w2 :
  is_nan a = false -> is_nan b = false -> fle a b = true ->
  0 <= w1 -> w1 <= w2 -> w2 < 1 ->
  is_nan (lerp a b w1) = false -> is_nan (lerp a b w2) = false ->
  fle (lerp a b w1) (lerp a b w2) = true.
Proof.
  unfold lerp; intros Ha Hb Hab H0 H12 H1 Hv1 Hv2.
  destruct a, b; simpl in *; try discriminate;
    unfold inf_times in *; rdec; simpl in *; try discriminate; try lra;
    unfold fle, flt in *; rdec; try discriminate; auto; try nra.
Qed.

Lemma floor_position q n :
  0 <= q <= 1 ->
  let h := q * INR n in
  let b := Z.to_nat (Zfloor h) in
  INR b <= h < INR b + 1 /\ (b <= n)%nat.
Proof.
  intros Hq h b.
  assert (Hn : 0 <= INR n) by apply pos_INR.
  assert (Hh : 0 <= h <= INR n) by (unfold h; split; nra).
  assert (Hz : (0 <= Zfloor h)%Z) by (apply (Zfloor_lub 0); simpl; lra).
  assert (Hb : INR b = IZR (Zfloor h)).
  { unfold b. rewrite INR_IZR_INZ, Z2Nat.id; auto. }
  pose proof (Zfloor_bound h) as Hf.
  split; [rewrite Hb; lra |].
  apply INR_le. rewrite Hb. lra.
Qed.

Section QuantileOrder.

Variable ap : list fval.
Hypothesis ap_sorted : sorted ap.
Hypothesis ap_numbers : forall y, In y ap -> is_nan y = false.

Lemma at_position_mono q1 q2 :
  ap <> [] -> 0 <= q1 -> q1 <= q2 -> q2 <= 1 ->
  is_nan (at_position ap q1) = false -> is_nan (at_position ap q2) = false ->
  fle (at_position ap q1) (at_position ap q2) = true.
Proof.
  intros Hne H0 H12 H1.
  assert (Hlen : (1 <= length ap)%nat) by (destruct ap; simpl; [congruence | lia]).
  unfold at_position.
  set (n := (length ap - 1)%nat).
  destruct (floor_position q1 n) as [Hp1 Hb1]; [lra |].
  destruct (floor_position q2 n) as [Hp2 Hb2]; [lra |].
  set (b1 := Z.to_nat (Zfloor (q1 * INR n))) in *.
  set (b2 := Z.to_nat (Zfloor (q2 * INR n))) in *.
  set (h1 := q1 * INR n) in *. set (h2 := q2 * INR n) in *.
  assert (Hh : h1 <= h2) by (unfold h1, h2; pose proof (pos_INR n); nra).
  assert (Hb : (b1 <= b2)%nat).
  { apply INR_le. destruct (Rle_dec (INR b1) (INR b2)); auto.
    assert (Hlt : (b2 < b1)%nat) by (apply INR_lt; lra).
    assert (INR b2 + 1 <= INR b1) by (rewrite <- S_INR; apply le_INR; lia).
    lra. }
  assert (Hnth : forall i, (i <= n)%nat -> is_nan (nth i ap NaN) = false).
  { intros i Hi. apply ap_numbers, nth_In. lia. }
  assert (Hord : forall i j, (i <= j <= n)%nat ->
                             fle (nth i ap NaN) (nth j ap NaN) = true).
  { intros i j Hij. apply sorted_nth; auto. lia. }
  intros Hv1 Hv2.
  destruct (Nat.eq_dec b1 b2) as [E | NE].
  - rewrite <- E in *. apply lerp_mono; auto; try lra.
    + apply Hnth; lia.
    + apply Hord; lia.
  - destruct (lerp_between (nth b1 ap NaN) (nth (Nat.min (b1 + 1) n) ap NaN)
                (h1 - INR b1)) as [_ Hu]; auto; try lra.
    { apply Hnth; lia. } { apply Hord; lia. }
    destruct (lerp_between (nth b2 ap NaN) (nth (Nat.min (b2 + 1) n) ap NaN)
                (h2 - INR b2)) as [Hl _]; auto; try lra.
    { apply Hnth; lia. } { apply Hord; lia. }
    eapply fle_trans; [| exact Hu |].
    { apply Hnth; lia. }
    eapply fle_trans; [| | exact Hl].
    { apply Hnth; lia. }
    apply Hord; lia.
Qed.

End QuantileOrder.

Lemma quantile_at_position s q :
  quantile s q =
  match sort (dropna s) with
  | [] => NaN
  | _ :: _ => at_position (sort (dropna s)) q
  end.
Proof. unfold quantile, at_position, lerp. destruct (sort (dropna s)); reflexivity. Qed.

Lemma quartiles_ordered s :
  is_nan (Q1 s) = false -> is_nan (Q3 s) = false -> fle (Q1 s) (Q3 s) = true.
Proof.
  unfold Q1, Q3. rewrite !quantile_at_position.
  destruct (sort (dropna s)) as [| x l] eqn:E; [discriminate |].
  intros H1 H3. rewrite <- E in *.
  apply at_position_mono; auto; try lra.
  - apply sort_sorted.
  - intros y Hy. apply sort_In, dropna_In in Hy. tauto.
  - rewrite E; discriminate.
Qed.

(** ** The outlier loop *)

Lemma whiskers_not_crossed s :
  flt (upper_whisker s) (lower_whisker s) = false.
Proof.
  pose proof (quartiles_ordered s) as Hq.
  unfold upper_whisker, lower_whisker, IQR.
  destruct (Q1 s) as [| | | a], (Q3 s) as [| | | b]; simpl in *;
    try reflexivity;
    try (specialize (Hq eq_refl eq_refl); try discriminate);
    unfold inf_times; rdec; simpl; try reflexivity; try lra.
  unfold fle, flt in *. rdec; try discriminate; try reflexivity; lra.
Qed.

Lemma iteritems_from_In (start : nat) (col : list fval) (i : nat) (x : fval) :
  In (i, x) (combine (seq start (length col)) col) <->
  (start <= i)%nat /\ nth_error col (i - start)%nat = Some x.
Proof.
  revert start; induction col as [| y col IH]; intros start; simpl.
  - split; [easy | intros [_ H]]. destruct (i - start)%nat; discriminate.
  - rewrite IH. split.
    + intros [H | [H1 H2]].
      * inversion H; subst. rewrite Nat.sub_diag. auto.
      * split; [lia |]. replace (i - start)%nat with (S (i - S start)) by lia.
        exact H2.
    + intros [H1 H2]. destruct (Nat.eq_dec start i) as [-> | NE].
      * rewrite Nat.sub_diag in H2. simpl in H2. left; congruence.
      * right. split; [lia |].
        replace (i - start)%nat with (S (i - S start)) in H2 by lia.
        exact H2.
Qed.

Lemma iteritems_In col i x :
  In (i, x) (iteritems col) <-> nth_error col i = Some x.
Proof.
  unfold iteritems. rewrite iteritems_from_In, Nat.sub_0_r.
  split; [tauto | split; [lia | auto]].
Qed.

Lemma outlier_loop_high s items high low i :
  In i (fst (outlier_loop s items high low)) <->
  In i high \/ exists loss, In (i, loss) items /\ fgt loss (upper_whisker s) = true.
Proof.
  revert high low; induction items as [| [j x] items IH]; intros high low; simpl.
  - split; [auto | intros [H | [? [[] _]]]; auto].
  - rewrite IH. split.
    + intros [H | [loss [H1 H2]]]; [| right; eauto].
      destruct (fgt x (upper_whisker s)) eqn:E; auto.
      apply in_app_or in H. destruct H as [H | [<- | []]]; auto.
      right; exists x; auto.
    + intros [H | [loss [[H1 | H1] H2]]].
      * left. destruct (fgt x (upper_whisker s)); auto using in_or_app.
      * inversion H1; subst. rewrite H2. left. apply in_or_app; simpl; auto.
      * right; eauto.
Qed.

Lemma outlier_loop_low s items high low i :
  In i (snd (outlier_loop s items high low)) <->
  In i low \/ exists loss, In (i, loss) items /\ flt loss (lower_whisker s) = true.
Proof.
  revert high low; induction items as [| [j x] items IH]; intros high low; simpl.
  - split; [auto | intros [H | [? [[] _]]]; auto].
  - rewrite IH. split.
    + intros [H | [loss [H1 H2]]]; [| right; eauto].
      destruct (flt x (lower_whisker s)) eqn:E; auto.
      apply in_app_or in H. destruct H as [H | [<- | []]]; auto.
      right; exists x; auto.
    + intros [H | [loss [[H1 | H1] H2]]].
      * left. destruct (flt x (lower_whisker s)); auto using in_or_app.
      * inversion H1; subst. rewrite H2. left. apply in_or_app; simpl; auto.
      * right; eauto.
Qed.

Lemma high_outliers_spec s i :
  In i (high_outliers s) <->
  exists loss, nth_error s i = Some loss /\ fgt loss (upper_whisker s) = true.
Proof.
  unfold high_outliers. rewrite outlier_loop_high. simpl.
  split.
  - intros [[] | [loss [H1 H2]]]. exists loss. now rewrite <- iteritems_In.
  - intros [loss [H1 H2]]. right. exists loss. now rewrite iteritems_In.
Qed.

Lemma low_outliers_spec s i :
  In i (low_outliers s) <->
  exists loss, nth_error s i = Some loss /\ flt loss (lower_whisker s) = true.
Proof.
  unfold low_outliers. rewrite outlier_loop_low. simpl.
  split.
  - intros [[] | [loss [H1 H2]]]. exists loss. now rewrite <- iteritems_In.
  - intros [loss [H1 H2]]. right. exists loss. now rewrite iteritems_In.
Qed.

(** C7: for every series of total-loss values, the list of high-outlier
    indices and the list of low-outlier indices the loop builds are
    disjoint: an index in the first is not in the second. *)
Theorem outlier_sets_disjoint (losses : list fval) (i : nat) :
  In i (high_outliers losses) -> ~ In i (low_outliers losses).
Proof.
  intros Hh Hl.
  apply high_outliers_spec in Hh. destruct Hh as [x [Hx Hgt]].
  apply low_outliers_spec in Hl. destruct Hl as [y [Hy Hlt]].
  assert (y = x) by congruence. subst y.
  unfold fgt in Hgt.
  pose proof (flt_trans _ _ _ Hgt Hlt) as H.
  rewrite whiskers_not_crossed in H. discriminate.
Qed.

(** ** Columns are computed row by row *)

Lemma radiation_map k col : radiation k col = map (radiation_at k) col.
Proof. reflexivity. Qed.

Lemma convection_map k col : convection k col = map (convection_at k) col.
Proof.
  unfold convection, convection_at.
  destruct (Rlt_dec (ambient_velocity k) 3); reflexivity.
Qed.

Lemma loss_of_map k c col : loss_of k c col = map (loss_at k c) col.
Proof.
  unfold loss_of, per_kg. rewrite radiation_map, convection_map.
  induction col as [| T col IH]; simpl; [reflexivity |].
  now rewrite IH.
Qed.

Lemma nth_error_map_eq {A B} (f : A -> B) l l' i :
  nth_error l i = nth_error l' i ->
  nth_error (map f l) i = nth_error (map f l') i.
Proof. intros H. now rewrite !nth_error_map, H. Qed.

(** ** Writing the median into the high-outlier rows *)

Lemma loc_set_length i v col : length (loc_set i v col) = length col.
Proof.
  revert i; induction col as [| x col IH]; intros [| i]; simpl; auto.
Qed.

Lemma loc_set_other i v col j :
  j <> i -> nth_error (loc_set i v col) j = nth_error col j.
Proof.
  revert i j; induction col as [| x col IH]; intros [| i] [| j] H; simpl; auto.
  congruence.
Qed.

Lemma loc_set_same i v col :
  (i < length col)%nat -> nth_error (loc_set i v col) i = Some v.
Proof.
  revert i; induction col as [| x col IH]; intros [| i] H; simpl in *;
    try lia; auto.
  apply IH; lia.
Qed.

Lemma loc_set_all_length v idx col :
  length (fold_left (fun col index => loc_set index v col) idx col) = length col.
Proof.
  revert col; induction idx as [| i idx IH]; intros col; simpl; auto.
  now rewrite IH, loc_set_length.
Qed.

Lemma loc_set_all_other v idx col j :
  ~ In j idx ->
  nth_error (fold_left (fun col index => loc_set index v col) idx col) j
  = nth_error col j.
Proof.
  revert col; induction idx as [| i idx IH]; intros col H; simpl in *; auto.
  rewrite IH by tauto. apply loc_set_other. intros ->; tauto.
Qed.

Lemma loc_set_all_same v idx col j :
  In j idx -> (j < length col)%nat ->
  nth_error (fold_left (fun col index => loc_set index v col) idx col) j
  = Some v.
Proof.
  revert col; induction idx as [| i idx IH]; intros col H Hj; simpl in *;
    [easy |].
  destruct (in_dec Nat.eq_dec j idx) as [Hin | Hout].
  - apply IH; auto. now rewrite loc_set_length.
  - rewrite loc_set_all_other by auto.
    destruct H as [-> | H]; [| tauto]. now apply loc_set_same.
Qed.

Lemma drop_drop a b s :
  drop b (drop a s) =
  filter (fun p => negb (existsb (Nat.eqb (fst p)) a)
                   && negb (existsb (Nat.eqb (fst p)) b)) s.
Proof.
  unfold drop. induction s as [| p s IH]; simpl; auto.
  destruct (existsb (Nat.eqb (fst p)) a); simpl; auto.
  destruct (existsb (Nat.eqb (fst p)) b); simpl; now rewrite IH.
Qed.

Lemma df_total_loss_length k c : length (df_total_loss k c) = length (df_temp k).
Proof. unfold df_total_loss. now rewrite loss_of_map, length_map. Qed.

Lemma high_outliers_in_range s i :
  In i (high_outliers s) -> (i < length s)%nat.
Proof.
  intros H. apply high_outliers_spec in H. destruct H as [x [Hx _]].
  apply nth_error_Some. congruence.
Qed.

(** C4: when there are high outliers, the corrected temperature column
    has the length of the original one, agrees with it at every index
    that is not a high outlier (low outliers included), and holds at every
    high-outlier index the median of the temperatures of the rows that are
    in neither outlier list. *)
Theorem new_temp_frame (k : Kiln) (c : R) :
  high_outliers (df_total_loss k c) <> [] ->
  length (df_new_temp k c) = length (df_temp k) /\
  (forall i, ~ In i (high_outliers (df_total_loss k c)) ->
             nth_error (df_new_temp k c) i = nth_error (df_temp k) i) /\
  (forall i, In i (high_outliers (df_total_loss k c)) ->
             nth_error (df_new_temp k c) i =
             Some (median (map snd (filter (kept (high_outliers (df_total_loss k c))
                                                 (low_outliers (df_total_loss k c)))
                                           (iteritems (df_temp k)))))).
Proof.
  intros _. unfold df_new_temp. repeat split.
  - apply loc_set_all_length.
  - intros i Hi. now apply loc_set_all_other.
  - intros i Hi. unfold mediantemp. rewrite drop_drop.
    apply loc_set_all_same; auto.
    rewrite <- (df_total_loss_length k c). now apply high_outliers_in_range.
Qed.

(** C9: at every index that is not a high outlier, the radiation, the
    convection and the total loss recomputed on the corrected temperatures
    are the values of the first pass. *)
Theorem new_losses_frame (k : Kiln) (c : R) (i : nat) :
  ~ In i (high_outliers (df_total_loss k c)) ->
  nth_error (df_new_radiation k c) i = nth_error (df_radiation k c) i /\
  nth_error (df_new_convection k c) i = nth_error (df_convection k c) i /\
  nth_error (df_new_total_loss k c) i = nth_error (df_total_loss k c) i.
Proof.
  intros Hi.
  assert (Ht : nth_error (df_new_temp k c) i = nth_error (df_temp k) i)
    by (unfold df_new_temp; now apply loc_set_all_other).
  unfold df_new_radiation, df_radiation, df_new_convection, df_convection,
    df_new_total_loss, df_total_loss, per_kg.
  rewrite !loss_of_map, !radiation_map, !convection_map.
  repeat split; repeat apply nth_error_map_eq; exact Ht.
Qed.

(** ** Series whose values are all equal *)

Lemma at_position_within ap q :
  sorted ap -> (forall y, In y ap -> is_nan y = false) -> ap <> [] ->
  0 <= q <= 1 -> is_nan (at_position ap q) = false ->
  exists a b, In a ap /\ In b ap /\
              fle a (at_position ap q) = true /\ fle (at_position ap q) b = true.
Proof.
  intros Hs Hn Hne Hq Hv.
  assert (Hlen : (1 <= length ap)%nat) by (destruct ap; simpl; [congruence | lia]).
  unfold at_position in *.
  set (n := (length ap - 1)%nat) in *.
  destruct (floor_position q n Hq) as [Hp Hb].
  set (b := Z.to_nat (Zfloor (q * INR n))) in *.
  exists (nth b ap NaN), (nth (Nat.min (b + 1) n) ap NaN).
  assert (Hin : forall i, (i <= n)%nat -> In (nth i ap NaN) ap)
    by (intros; apply nth_In; lia).
  repeat split; try (apply Hin; lia);
    apply lerp_between; auto; try lra;
    try (apply Hn, Hin; lia); apply sorted_nth; auto; lia.
Qed.

Lemma constant_series_quantile s v q :
  (forall x, In x s -> x = v) -> 0 <= q <= 1 ->
  is_nan (quantile s q) = false ->
  fle v (quantile s q) = true /\ fle (quantile s q) v = true.
Proof.
  intros Hc Hq. rewrite quantile_at_position.
  destruct (sort (dropna s)) as [| x l] eqn:E; [discriminate |].
  rewrite <- E. intros Hv.
  destruct (at_position_within (sort (dropna s)) q) as [a [b [Ha [Hb [H1 H2]]]]];
    auto.
  - apply sort_sorted.
  - intros y Hy. apply sort_In, dropna_In in Hy. tauto.
  - rewrite E; discriminate.
  - apply sort_In, dropna_In in Ha. apply sort_In, dropna_In in Hb.
    rewrite (Hc a) in H1 by tauto. rewrite (Hc b) in H2 by tauto. auto.
Qed.

Lemma constant_series_whiskers s v :
  (forall x, In x s -> x = v) ->
  fgt v (upper_whisker s) = false /\ flt v (lower_whisker s) = false.
Proof.
  intros Hc.
  pose proof (constant_series_quantile s v (25 / 100) Hc) as H1.
  pose proof (constant_series_quantile s v (75 / 100) Hc) as H3.
  unfold upper_whisker, lower_whisker, IQR, Q1, Q3, fgt.
  destruct (quantile s (25 / 100)) as [| | | a],
           (quantile s (75 / 100)) as [| | | b], v as [| | | c];
    simpl in *; try (split; reflexivity);
    try (destruct H1 as [H1 H1']; [lra | reflexivity |]);
    try (destruct H3 as [H3 H3']; [lra | reflexivity |]);
    try discriminate;
    unfold inf_times; rdec; simpl; try (split; reflexivity); try lra.
  all: unfold fle, flt in *.
  all: rdec; try discriminate; try lra.
  all: split; reflexivity.
Qed.

(** C8, as amended: when all the values of the series are one and the same
    value, no index is a high outlier and none is a low outlier. *)
Theorem constant_series_no_outliers (losses : list fval) (v : fval) :
  (forall x, In x losses -> x = v) ->
  high_outliers losses = [] /\ low_outliers losses = [].
Proof.
  intros Hc. destruct (constant_series_whiskers losses v Hc) as [Hu Hl].
  split.
  - destruct (high_outliers losses) as [| i l] eqn:E; auto.
    assert (Hi : In i (high_outliers losses)) by (rewrite E; simpl; auto).
    apply high_outliers_spec in Hi. destruct Hi as [x [Hx Hgt]].
    apply nth_error_In in Hx. rewrite (Hc x Hx) in Hgt. congruence.
  - destruct (low_outliers losses) as [| i l] eqn:E; auto.
    assert (Hi : In i (low_outliers losses)) by (rewrite E; simpl; auto).
    apply low_outliers_spec in Hi. destruct Hi as [x [Hx Hlt]].
    apply nth_error_In in Hx. rewrite (Hc x Hx) in Hlt. congruence.
Qed.

(** ** Series of five numbers *)

Ltac rstep :=
  match goal with
  | |- context [Rlt_dec ?a ?b] =>
      destruct (Rlt_dec a b); [try (exfalso; lra) | try (exfalso; lra)]
  | |- context [Req_dec_T ?a ?b] =>
      destruct (Req_dec_T a b); [try (exfalso; lra) | try (exfalso; lra)]
  end.

Ltac feval :=
  repeat (simpl; unfold fle, fgt, flt, fsub, fadd, fneg, fmul, fdiv,
          inf_times; try rstep).

Lemma Zfloor_quarter_of_4 : Z.to_nat (Zfloor (25 / 100 * INR 4)) = 1%nat.
Proof.
  replace (Zfloor (25 / 100 * INR 4)) with 1%Z; [reflexivity |].
  symmetry; apply Zfloor_eq. simpl. lra.
Qed.

Lemma Zfloor_three_quarters_of_4 : Z.to_nat (Zfloor (75 / 100 * INR 4)) = 3%nat.
Proof.
  replace (Zfloor (75 / 100 * INR 4)) with 3%Z; [reflexivity |].
  symmetry; apply Zfloor_eq. simpl. lra.
Qed.

Lemma quartiles_of_five s a0 a1 a2 a3 a4 :
  sort (dropna s) = [Fin a0; Fin a1; Fin a2; Fin a3; Fin a4] ->
  Q1 s = Fin a1 /\ Q3 s = Fin a3.
Proof.
  intros E. unfold Q1, Q3, quantile. rewrite E.
  cbv [length Nat.sub].
  rewrite Zfloor_quarter_of_4, Zfloor_three_quarters_of_4.
  simpl. split; f_equal; lra.
Qed.

Lemma whiskers_of_five s a0 a1 a2 a3 a4 :
  sort (dropna s) = [Fin a0; Fin a1; Fin a2; Fin a3; Fin a4] ->
  IQR s = Fin (a3 - a1) /\
  upper_whisker s = Fin (a3 + 15 / 10 * (a3 - a1)) /\
  lower_whisker s = Fin (a1 - 15 / 10 * (a3 - a1)).
Proof.
  intros E. destruct (quartiles_of_five s _ _ _ _ _ E) as [H1 H3].
  unfold upper_whisker, lower_whisker, IQR. rewrite H1, H3. simpl.
  repeat split; f_equal; lra.
Qed.

(** ** Four equal readings and one hotter reading *)

Section OneHotSpot.

Variables a b : R.
Hypothesis a_lt_b : a < b.

Let s : list fval := [Fin a; Fin a; Fin a; Fin a; Fin b].

Lemma hot_spot_sorted : sort (dropna s) = s.
Proof. unfold s. feval. reflexivity. Qed.

Lemma hot_spot_IQR : IQR s = Fin 0.
Proof.
  destruct (whiskers_of_five s _ _ _ _ _ hot_spot_sorted) as [H _].
  rewrite H. f_equal; lra.
Qed.

Lemma hot_spot_whiskers : upper_whisker s = Fin a /\ lower_whisker s = Fin a.
Proof.
  destruct (whiskers_of_five s _ _ _ _ _ hot_spot_sorted) as [_ [H1 H2]].
  rewrite H1, H2. split; f_equal; lra.
Qed.

Lemma hot_spot_outliers : high_outliers s = [4%nat] /\ low_outliers s = [].
Proof.
  destruct hot_spot_whiskers as [Hu Hl].
  unfold high_outliers, low_outliers. unfold s at 2 4. cbn [iteritems length seq combine outlier_loop].
  rewrite Hu, Hl. feval. split; reflexivity.
Qed.

End OneHotSpot.

(** C8, the claim as stated fails: in the series 1, 1, 1, 1, 100 the
    interquartile range is 0, and the last value is a high outlier. *)
Lemma zero_IQR_with_outlier :
  let losses := [Fin 1; Fin 1; Fin 1; Fin 1; Fin 100] in
  losses <> [] /\ IQR losses = Fin 0 /\
  ~ (high_outliers losses = [] /\ low_outliers losses = []).
Proof.
  assert (H : 1 < 100) by lra.
  split; [discriminate |]. split.
  - apply (hot_spot_IQR 1 100 H).
  - destruct (hot_spot_outliers 1 100 H) as [Hh _].
    intros [E _]. rewrite Hh in E. discriminate.
Qed.

(** The same situation in a whole run: a kiln with four readings [t0]
    and a fifth reading [t1] whose loss is larger. *)
Section HotSpotRun.

Variable k : Kiln.
Variables c t0 t1 a b : R.
Hypothesis temps : df_temp k = [Fin t0; Fin t0; Fin t0; Fin t0; Fin t1].
Hypothesis loss0 : loss_at k c (Fin t0) = Fin a.
Hypothesis loss1 : loss_at k c (Fin t1) = Fin b.
Hypothesis a_lt_b : a < b.

Lemma run_losses :
  df_total_loss k c = [Fin a; Fin a; Fin a; Fin a; Fin b].
Proof.
  unfold df_total_loss. rewrite loss_of_map, temps. simpl.
  now rewrite loss0, loss1.
Qed.

Lemma run_high : high_outliers (df_total_loss k c) = [4%nat].
Proof. rewrite run_losses. apply (hot_spot_outliers a b a_lt_b). Qed.

Lemma run_low : low_outliers (df_total_loss k c) = [].
Proof. rewrite run_losses. apply (hot_spot_outliers a b a_lt_b). Qed.

Lemma run_mediantemp : mediantemp k c = Fin t0.
Proof.
  unfold mediantemp. rewrite run_high, run_low, temps.
  cbn. unfold median, sort, dropna. feval; f_equal; lra.
Qed.

Lemma run_new_temp :
  df_new_temp k c = [Fin t0; Fin t0; Fin t0; Fin t0; Fin t0].
Proof.
  unfold df_new_temp. fold (mediantemp k c).
  rewrite run_mediantemp, run_high, temps. reflexivity.
Qed.

Lemma run_total_loss : total_loss k c = Fin (4 * a + b).
Proof.
  unfold total_loss. rewrite run_losses. cbn. f_equal; lra.
Qed.

Lemma run_new_total_loss : new_total_loss k c = Fin (5 * a).
Proof.
  unfold new_total_loss, df_new_total_loss. fold (df_new_temp k c).
  rewrite loss_of_map, run_new_temp. cbn. rewrite loss0. cbn. f_equal; lra.
Qed.

Lemma run_savings : savings k c = Fin (b - a).
Proof.
  unfold savings. fold (new_total_loss k c).
  rewrite run_total_loss, run_new_total_loss. cbn. f_equal; lra.
Qed.

Lemma run_savings_positive : fgt (savings k c) (Fin 0) = true.
Proof. rewrite run_savings. apply flt_Fin. lra. Qed.

End HotSpotRun.

(** ** The loss of one row in the natural-convection regime *)

Lemma loss_at_natural k c T :
  ambient_velocity k < 3 -> 0 <= ambient_temp k -> ambient_temp k < T ->
  c <> 0 ->
  loss_at k c (Fin T) = Fin (natural_loss k c T).
Proof.
  intros Hv Ha HT Hc.
  unfold loss_at, radiation_at, convection_at, natural_convection, natural_loss,
    natural_factor.
  destruct (Rlt_dec (ambient_velocity k) 3); [| lra].
  cbn [fpow4 fsub fneg fadd fmul]. unfold fdiv at 3.
  destruct (Req_dec_T 2 0); [lra |].
  unfold fpow.
  destruct (Rlt_dec 0 ((T + ambient_temp k) / 2)); [| lra].
  destruct (Rlt_dec 0 (T + - ambient_temp k)); [| lra].
  cbn [fmul]. unfold fdiv.
  destruct (Req_dec_T c 0); [contradiction |].
  cbn [fadd]. reflexivity.
Qed.

Lemma natural_factor_pos Ta T : 0 < natural_factor Ta T.
Proof.
  unfold natural_factor, Rpower.
  apply Rmult_lt_0_compat; apply exp_pos.
Qed.

Lemma ln_monotone x y : 0 < x -> x <= y -> ln x <= ln y.
Proof.
  intros Hx [Hlt | ->]; [| lra].
  left. now apply ln_increasing.
Qed.

Lemma natural_factor_increasing Ta T1 T2 :
  0 <= Ta -> Ta < T1 -> T1 < T2 ->
  natural_factor Ta T1 < natural_factor Ta T2.
Proof.
  intros Ha H1 H2. unfold natural_factor, Rpower.
  rewrite <- !exp_plus. apply exp_increasing.
  set (u1 := (T1 + Ta) / 2). set (u2 := (T2 + Ta) / 2).
  set (v1 := T1 - Ta). set (v2 := T2 - Ta).
  assert (Hu1 : 0 < u1) by (unfold u1; lra).
  assert (Hu2 : 0 < u2) by (unfold u2; lra).
  assert (Hv1 : 0 < v1) by (unfold v1; lra).
  assert (Hv2 : 0 < v2) by (unfold v2; lra).
  assert (Hv : ln v1 < ln v2) by (apply ln_increasing; unfold v1, v2; lra).
  assert (Hc : ln u2 + ln v1 <= ln v2 + ln u1).
  { rewrite <- !ln_mult by assumption.
    apply ln_monotone; [apply Rmult_lt_0_compat; assumption |].
    unfold u1, u2, v1, v2. nra. }
  lra.
Qed.

Lemma pow4_increasing x y : 0 <= x -> x < y -> x ^ 4 < y ^ 4.
Proof.
  intros Hx Hxy. simpl.
  assert (H2 : x * x < y * y) by nra.
  assert (H0 : 0 <= x * x) by nra.
  nra.
Qed.

Lemma natural_loss_increasing k c T1 T2 :
  0 <= emissivity k -> 0 < section_area k -> 0 < c ->
  0 <= ambient_temp k -> ambient_temp k < T1 -> T1 < T2 ->
  natural_loss k c T1 < natural_loss k c T2.
Proof.
  intros He HA Hc Ha H1 H2. unfold natural_loss.
  pose proof (natural_factor_increasing (ambient_temp k) T1 T2 Ha H1 H2) as Hf.
  assert (Hp : T1 ^ 4 < T2 ^ 4) by (apply pow4_increasing; lra).
  assert (Hs : 0 < STEFAN_BOLTZMANN_CONSTANT)
    by (unfold STEFAN_BOLTZMANN_CONSTANT; lra).
  assert (Hr : emissivity k * section_area k * STEFAN_BOLTZMANN_CONSTANT
               * (T1 ^ 4 - ambient_temp k ^ 4)
               <= emissivity k * section_area k * STEFAN_BOLTZMANN_CONSTANT
                  * (T2 ^ 4 - ambient_temp k ^ 4)).
  { apply Rmult_le_compat_l; [| lra].
    repeat apply Rmult_le_pos; lra. }
  assert (Hn : 8033 / 100 * natural_factor (ambient_temp k) T1 * section_area k
               < 8033 / 100 * natural_factor (ambient_temp k) T2 * section_area k).
  { apply Rmult_lt_compat_r; [assumption | lra]. }
  unfold Rdiv. rewrite <- !Rmult_plus_distr_r.
  apply Rmult_lt_compat_r; [now apply Rinv_0_lt_compat | lra].
Qed.

(** ** Bounds on real powers *)

Lemma exp_monotone x y : x <= y -> exp x <= exp y.
Proof. intros [H | ->]; [left; now apply exp_increasing | lra]. Qed.

Lemma Rpower_le_of_pow x y B (p q : nat) :
  1 <= x -> 0 < B -> (0 < q)%nat -> y * INR q <= INR p -> x ^ p <= B ^ q ->
  Rpower x y <= B.
Proof.
  intros Hx HB Hq Hy Hpow.
  rewrite <- (exp_ln B HB). unfold Rpower. apply exp_monotone.
  assert (Hl : 0 <= ln x) by (rewrite <- ln_1; apply ln_monotone; lra).
  assert (HQ : 0 < INR q) by (apply lt_0_INR; lia).
  assert (H1 : INR p * ln x <= INR q * ln B).
  { rewrite <- !ln_pow by lra.
    apply ln_monotone; [apply pow_lt; lra | assumption]. }
  assert (H2 : y * INR q * ln x <= INR p * ln x)
    by (apply Rmult_le_compat_r; assumption).
  apply Rmult_le_reg_r with (INR q); [assumption |]. nra.
Qed.

Lemma Rpower_ge_of_pow x y B (p q : nat) :
  1 <= x -> 0 < B -> (0 < q)%nat -> INR p <= y * INR q -> B ^ q <= x ^ p ->
  B <= Rpower x y.
Proof.
  intros Hx HB Hq Hy Hpow.
  rewrite <- (exp_ln B HB) at 1. unfold Rpower. apply exp_monotone.
  assert (Hl : 0 <= ln x) by (rewrite <- ln_1; apply ln_monotone; lra).
  assert (HQ : 0 < INR q) by (apply lt_0_INR; lia).
  assert (H1 : INR q * ln B <= INR p * ln x).
  { rewrite <- !ln_pow by lra.
    apply ln_monotone; [apply pow_lt; lra | assumption]. }
  assert (H2 : INR p * ln x <= y * INR q * ln x)
    by (apply Rmult_le_compat_r; assumption).
  apply Rmult_le_reg_r with (INR q); [assumption |]. nra.
Qed.

Lemma Rpower_pos x y : 0 < Rpower x y.
Proof. unfold Rpower; apply exp_pos. Qed.

(** The convection factor grows at most like the temperature excess to
    the power 1.333. *)
Lemma natural_factor_ratio Ta T1 T2 rho :
  0 <= Ta -> Ta < T1 -> T1 <= T2 ->
  Rpower ((T2 - Ta) / (T1 - Ta)) (1333 / 1000) <= rho ->
  natural_factor Ta T2 <= rho * natural_factor Ta T1.
Proof.
  intros Ha H1 H2 Hr. unfold natural_factor.
  assert (Hu : Rpower ((T2 + Ta) / 2) (- (724 / 1000))
               <= Rpower ((T1 + Ta) / 2) (- (724 / 1000))).
  { rewrite !Rpower_Ropp. apply Rinv_le_contravar; [apply Rpower_pos |].
    apply Rle_Rpower_l; lra. }
  assert (Hv : Rpower (T2 - Ta) (1333 / 1000)
               = Rpower (T1 - Ta) (1333 / 1000)
                 * Rpower ((T2 - Ta) / (T1 - Ta)) (1333 / 1000)).
  { rewrite Rpower_mult_distr.
    - f_equal. field. lra.
    - lra.
    - apply Rdiv_lt_0_compat; lra. }
  rewrite Hv.
  pose proof (Rpower_pos ((T2 + Ta) / 2) (- (724 / 1000))).
  pose proof (Rpower_pos ((T1 + Ta) / 2) (- (724 / 1000))).
  pose proof (Rpower_pos (T1 - Ta) (1333 / 1000)).
  pose proof (Rpower_pos ((T2 - Ta) / (T1 - Ta)) (1333 / 1000)).
  set (u2 := Rpower ((T2 + Ta) / 2) (- (724 / 1000))) in *.
  set (u1 := Rpower ((T1 + Ta) / 2) (- (724 / 1000))) in *.
  set (v1 := Rpower (T1 - Ta) (1333 / 1000)) in *.
  set (w := Rpower ((T2 - Ta) / (T1 - Ta)) (1333 / 1000)) in *.
  assert (u2 * (v1 * w) <= u1 * (v1 * w)).
  { apply Rmult_le_compat_r; [| assumption].
    apply Rlt_le, Rmult_lt_0_compat; assumption. }
  assert (u1 * v1 * w <= u1 * v1 * rho).
  { apply Rmult_le_compat_l; [| assumption].
    apply Rlt_le, Rmult_lt_0_compat; assumption. }
  lra.
Qed.

(** Numeric bounds at the ambient temperature 302 K. *)
Lemma natural_factor_415 : natural_factor 302 415 <= 91 / 10.
Proof.
  unfold natural_factor.
  replace ((415 + 302) / 2) with (3585 / 10) by lra.
  replace (415 - 302) with 113 by lra.
  rewrite Rpower_Ropp.
  assert (H1 : Rpower 113 (1333 / 1000) <= 550)
    by (apply (Rpower_le_of_pow _ _ _ 4 3); simpl; lra || lia).
  assert (H2 : 607 / 10 <= Rpower (3585 / 10) (724 / 1000))
    by (apply (Rpower_ge_of_pow _ _ _ 7 10); simpl; lra || lia).
  pose proof (Rpower_pos 113 (1333 / 1000)) as H3.
  assert (H4 : / Rpower (3585 / 10) (724 / 1000) <= / (607 / 10))
    by (apply Rinv_le_contravar; lra).
  assert (H5 : 0 < / Rpower (3585 / 10) (724 / 1000))
    by (apply Rinv_0_lt_compat, Rpower_pos).
  set (u := / Rpower (3585 / 10) (724 / 1000)) in *.
  set (v := Rpower 113 (1333 / 1000)) in *.
  assert (u * v <= / (607 / 10) * 550) by (apply Rmult_le_compat; lra).
  lra.
Qed.

Lemma natural_factor_405_400 :
  natural_factor 302 405 <= 107 / 100 * natural_factor 302 400.
Proof.
  apply natural_factor_ratio; try lra.
  replace ((405 - 302) / (400 - 302)) with (103 / 98) by lra.
  apply (Rpower_le_of_pow _ _ _ 4 3); simpl; lra || lia.
Qed.

(** ** Concrete runs *)

Lemma average_readings temps : average (readings temps) = map Fin temps.
Proof.
  unfold average, readings. cbn [rows columns_count]. rewrite map_map.
  apply map_ext. intros t. unfold skipna_sum. cbn.
  unfold fdiv. destruct (Req_dec_T 1 0); [lra |]. f_equal; lra.
Qed.

Lemma Kiln_init_kelvin_temp d v Ta e i temps :
  df_temp (Kiln_init d v Ta Kelvin e i (readings temps)) = map Fin temps.
Proof.
  cbn [Kiln_init df_temp]. rewrite average_readings, map_map.
  apply map_ext. reflexivity.
Qed.

Lemma kiln_with_temp temps : df_temp (kiln_with temps) = map Fin temps.
Proof. apply Kiln_init_kelvin_temp. Qed.

Lemma kiln_with_area temps : section_area (kiln_with temps) = PI * (475 / 100) * 1.
Proof. reflexivity. Qed.

Lemma kiln_with_area_pos temps : 0 < section_area (kiln_with temps).
Proof. rewrite kiln_with_area. pose proof PI_RGT_0. lra. Qed.

Lemma kiln_with_loss temps T :
  302 < T ->
  loss_at (kiln_with temps) production (Fin T)
  = Fin (natural_loss (kiln_with temps) production T).
Proof.
  intros HT. apply loss_at_natural; cbn; unfold production; lra.
Qed.

Lemma kiln_with_loss_increasing temps T1 T2 :
  302 < T1 -> T1 < T2 ->
  natural_loss (kiln_with temps) production T1
  < natural_loss (kiln_with temps) production T2.
Proof.
  intros H1 H2. apply natural_loss_increasing; auto.
  - cbn; lra.
  - apply kiln_with_area_pos.
  - unfold production; lra.
  - cbn; lra.
Qed.

Lemma kiln_with_loss_shape temps T :
  natural_loss (kiln_with temps) production T
  = PI * (475 / 100) / production * shape T.
Proof.
  unfold natural_loss, shape. cbn [kiln_with Kiln_init emissivity section_area ambient_temp].
  unfold production. field.
Qed.

(** *** Four readings of 400 K and one of 405 K *)

Lemma small_spot_temps :
  df_temp small_spot = [Fin 400; Fin 400; Fin 400; Fin 400; Fin 405].
Proof. unfold small_spot. now rewrite kiln_with_temp. Qed.

Lemma small_spot_loss400 : loss_at small_spot production (Fin 400) = Fin loss400.
Proof. apply kiln_with_loss; lra. Qed.

Lemma small_spot_loss405 : loss_at small_spot production (Fin 405) = Fin loss405.
Proof. apply kiln_with_loss; lra. Qed.

Lemma small_spot_order : loss400 < loss405.
Proof. apply kiln_with_loss_increasing; lra. Qed.

Lemma small_spot_high : high_outliers (df_total_loss small_spot production) = [4%nat].
Proof.
  exact (run_high _ _ _ _ _ _ small_spot_temps small_spot_loss400
           small_spot_loss405 small_spot_order).
Qed.

Lemma small_spot_low : low_outliers (df_total_loss small_spot production) = [].
Proof.
  exact (run_low _ _ _ _ _ _ small_spot_temps small_spot_loss400
           small_spot_loss405 small_spot_order).
Qed.

Lemma small_spot_savings : savings small_spot production = Fin (loss405 - loss400).
Proof.
  exact (run_savings _ _ _ _ _ _ small_spot_temps small_spot_loss400
           small_spot_loss405 small_spot_order).
Qed.

Lemma small_spot_savings_positive :
  fgt (savings small_spot production) (Fin 0) = true.
Proof.
  exact (run_savings_positive _ _ _ _ _ _ small_spot_temps small_spot_loss400
           small_spot_loss405 small_spot_order).
Qed.

Lemma bricks_per_ring_475 : bricks_per_ring (475 / 100) = 197%Z.
Proof.
  unfold bricks_per_ring, internal_diameter, SHELL_THICKNESS, BRICK_HEIGHT.
  apply Zfloor_eq. lra.
Qed.

Lemma repair_cost_475 : repair_cost (475 / 100) 1 = 98500%Z.
Proof. unfold repair_cost. rewrite bricks_per_ring_475. reflexivity. Qed.

Lemma small_spot_shape_gain : shape 405 - shape 400 <= 110.
Proof.
  pose proof natural_factor_405_400 as H1.
  pose proof natural_factor_415 as H2.
  assert (H3 : natural_factor 302 400 < natural_factor 302 415)
    by (apply natural_factor_increasing; lra).
  pose proof (natural_factor_pos 302 400) as H4.
  unfold shape, STEFAN_BOLTZMANN_CONSTANT. lra.
Qed.

Lemma small_spot_money :
  money_saved_per_year (savings small_spot production) production
  = Fin (PI * (475 / 100) * (792 / 100) * (shape 405 - shape 400)).
Proof.
  rewrite small_spot_savings. unfold loss405, loss400, small_spot.
  rewrite !kiln_with_loss_shape.
  unfold money_saved_per_year, WORKING_DAYS_PER_YEAR, COAL_CALORIFIC_VALUE,
    COAL_COST_PER_TON, production.
  cbn [fmul]. unfold fdiv.
  destruct (Req_dec_T 4500 0); [lra |].
  destruct (Req_dec_T 1000 0); [lra |].
  cbn [fmul]. f_equal. field.
Qed.

Lemma small_spot_net :
  exists net, savings_per_year_rupees small_spot production = Fin net /\ net < 0.
Proof.
  unfold savings_per_year_rupees.
  fold (savings small_spot production).
  rewrite small_spot_money, small_spot_high.
  change (diameter small_spot) with (475 / 100).
  change (length [4%nat]) with 1%nat.
  rewrite repair_cost_475. cbn [fsub fneg fadd].
  eexists; split; [reflexivity |].
  pose proof small_spot_shape_gain as H1.
  pose proof PI_4 as H2. pose proof PI_RGT_0 as H3.
  assert (H4 : shape 400 < shape 405).
  { pose proof small_spot_order as Ho. unfold loss400, loss405, small_spot in Ho.
    rewrite !kiln_with_loss_shape in Ho. unfold production in Ho.
    assert (Hk : 0 < PI * (475 / 100) / 290000)
      by (apply Rdiv_lt_0_compat; lra).
    nra. }
  assert (H5 : PI * (shape 405 - shape 400) <= 4 * 110)
    by (apply Rmult_le_compat; lra).
  lra.
Qed.

(** ** The report *)

Lemma analyse_cases k c :
  high_outliers (df_total_loss k c) <> [] ->
  analyse k c =
  if fgt (savings k c) (Fin 0)
  then Summary (total_loss k c) (low_outliers (df_total_loss k c))
               (high_outliers (df_total_loss k c))
               (savings k c) (savings_per_year_rupees k c)
  else SomethingIsWrong (total_loss k c) (new_total_loss k c).
Proof.
  intros H. unfold analyse.
  destruct (high_outliers (df_total_loss k c)); [congruence | reflexivity].
Qed.

(** C5, as amended: when there are high outliers, the run ends with the
    "something is wrong" message exactly when the test [savings > 0.0]
    fails; for a savings figure that is a finite number this is the case
    savings <= 0.  The message carries the two totals only (no repair cost,
    no annual savings), and the run always ends with a report. *)
Theorem warning_iff_savings_not_positive (k : Kiln) (c : R) :
  high_outliers (df_total_loss k c) <> [] ->
  (analyse k c = SomethingIsWrong (total_loss k c) (new_total_loss k c)
   <-> fgt (savings k c) (Fin 0) = false) /\
  (forall s, savings k c = Fin s ->
             (analyse k c = SomethingIsWrong (total_loss k c) (new_total_loss k c)
              <-> s <= 0)).
Proof.
  intros H. rewrite (analyse_cases k c H).
  assert (Hiff : (if fgt (savings k c) (Fin 0)
                  then Summary (total_loss k c) (low_outliers (df_total_loss k c))
                         (high_outliers (df_total_loss k c))
                         (savings k c) (savings_per_year_rupees k c)
                  else SomethingIsWrong (total_loss k c) (new_total_loss k c))
                 = SomethingIsWrong (total_loss k c) (new_total_loss k c)
                 <-> fgt (savings k c) (Fin 0) = false).
  { destruct (fgt (savings k c) (Fin 0)); split; intros; try discriminate; auto. }
  split; [exact Hiff |].
  intros s Hs. rewrite Hiff, Hs. unfold fgt.
  split; intros Hle.
  - destruct (Rlt_dec 0 s) as [Hlt | Hge]; [| lra].
    apply flt_Fin in Hlt. congruence.
  - destruct (flt (Fin 0) (Fin s)) eqn:E; auto.
    apply flt_Fin in E. lra.
Qed.

(** C10: in the run with readings 400, 400, 400, 400, 405 K there is a
    high outlier and the savings are positive, the repair cost exceeds the
    money saved per year, so the net figure is negative; the run still
    ends with the ordinary summary. *)
Theorem summary_despite_negative_net :
  high_outliers (df_total_loss small_spot production) <> [] /\
  fgt (savings small_spot production) (Fin 0) = true /\
  exists net,
    net < 0 /\
    savings_per_year_rupees small_spot production = Fin net /\
    analyse small_spot production =
    Summary (total_loss small_spot production) [] [4%nat]
            (savings small_spot production) (Fin net).
Proof.
  assert (Hh : high_outliers (df_total_loss small_spot production) <> [])
    by (rewrite small_spot_high; discriminate).
  split; [exact Hh |]. split; [apply small_spot_savings_positive |].
  destruct small_spot_net as [net [Hn Hneg]].
  exists net. repeat split; auto.
  rewrite (analyse_cases _ _ Hh), small_spot_savings_positive.
  now rewrite small_spot_high, small_spot_low, Hn.
Qed.

(** ** Repair cost *)

Lemma PI_above_3141 : 3141 / 1000 < PI.
Proof.
  pose proof (PI_2_3_7_ineq 1) as [H _].
  unfold sum_f_R0, tg_alt, PI_2_3_7_tg, Ratan_seq in H.
  simpl in H. lra.
Qed.

Lemma PI_below_3142 : PI < 3142 / 1000.
Proof.
  pose proof (PI_2_3_7_ineq 2) as [_ H].
  unfold sum_f_R0, tg_alt, PI_2_3_7_tg, Ratan_seq in H.
  simpl in H. lra.
Qed.

Lemma repair_cost_12 : repair_cost 12 1 = 257500%Z.
Proof.
  unfold repair_cost, bricks_per_ring, internal_diameter, SHELL_THICKNESS,
    BRICK_HEIGHT.
  replace (Zfloor _) with 515%Z; [reflexivity |].
  symmetry; apply Zfloor_eq. lra.
Qed.

Lemma spec_repair_cost_12 : spec_repair_cost 12 1 = 258000%Z.
Proof.
  unfold spec_repair_cost, spec_bricks_per_ring.
  replace (Zfloor _) with 516%Z; [reflexivity |].
  symmetry; apply Zfloor_eq.
  pose proof PI_above_3141. pose proof PI_below_3142. lra.
Qed.

Lemma wide_spot_temps :
  df_temp wide_spot = [Fin 400; Fin 400; Fin 400; Fin 400; Fin 405].
Proof. unfold wide_spot. now rewrite Kiln_init_kelvin_temp. Qed.

Lemma wide_spot_area_pos : 0 < section_area wide_spot.
Proof. cbn. pose proof PI_RGT_0. lra. Qed.

Lemma wide_spot_loss T :
  302 < T -> loss_at wide_spot production (Fin T)
             = Fin (natural_loss wide_spot production T).
Proof. intros HT. apply loss_at_natural; cbn; unfold production; lra. Qed.

Lemma wide_spot_order : wide400 < wide405.
Proof.
  apply natural_loss_increasing; try apply wide_spot_area_pos;
    cbn; unfold production; lra.
Qed.

(** C1, the claim as stated fails: on a kiln of diameter 12 m with readings
    400, 400, 400, 400, 405 K there is one high outlier and the savings are
    positive; the summary charges a repair cost of 257500 rupees (515
    bricks per ring), where the formula with the exact pi gives 258000
    (516 bricks per ring). *)
Lemma repair_cost_not_exact_pi :
  high_outliers (df_total_loss wide_spot production) = [4%nat] /\
  fgt (savings wide_spot production) (Fin 0) = true /\
  analyse wide_spot production =
  Summary (total_loss wide_spot production) [] [4%nat]
          (savings wide_spot production)
          (fsub (money_saved_per_year (savings wide_spot production) production)
                (Fin (IZR 257500))) /\
  spec_repair_cost 12 1 = 258000%Z.
Proof.
  pose proof (run_high _ _ _ _ _ _ wide_spot_temps (wide_spot_loss 400 ltac:(lra))
                (wide_spot_loss 405 ltac:(lra)) wide_spot_order) as Hh.
  pose proof (run_low _ _ _ _ _ _ wide_spot_temps (wide_spot_loss 400 ltac:(lra))
                (wide_spot_loss 405 ltac:(lra)) wide_spot_order) as Hl.
  pose proof (run_savings_positive _ _ _ _ _ _ wide_spot_temps
                (wide_spot_loss 400 ltac:(lra)) (wide_spot_loss 405 ltac:(lra))
                wide_spot_order) as Hs.
  split; [exact Hh |]. split; [exact Hs |]. split; [| apply spec_repair_cost_12].
  rewrite analyse_cases by (rewrite Hh; discriminate).
  rewrite Hs, Hl. unfold savings_per_year_rupees. rewrite Hh.
  change (diameter wide_spot) with 12. change (length [4%nat]) with 1%nat.
  rewrite repair_cost_12. reflexivity.
Qed.

(** C1, as amended: when there are high outliers and the savings are
    positive, the summary's net figure is the money saved minus the repair
    cost 100 * (5 * floor(3.14 * (diameter * 1000 - 2 * 16 - 220) / 71.5))
    * (number of high outliers), with the constant 3.14 in place of pi. *)
Theorem repair_cost_in_summary (k : Kiln) (c : R) :
  high_outliers (df_total_loss k c) <> [] ->
  fgt (savings k c) (Fin 0) = true ->
  analyse k c =
  Summary (total_loss k c) (low_outliers (df_total_loss k c))
          (high_outliers (df_total_loss k c)) (savings k c)
          (fsub (money_saved_per_year (savings k c) c)
                (Fin (IZR (Zfloor (314 / 100 * (diameter k * 1000 - 2 * 16 - 220)
                                   / (715 / 10))
                           * 5 * Z.of_nat (length (high_outliers (df_total_loss k c)))
                           * 100)))).
Proof.
  intros Hh Hs. rewrite (analyse_cases k c Hh), Hs. reflexivity.
Qed.

(** ** Five distinct readings, the fourth one far above the others *)

Section FourthIsHigh.

Variables x0 x1 x2 x3 x4 : R.
Hypothesis order01 : x0 < x1.
Hypothesis order12 : x1 < x2.
Hypothesis order24 : x2 < x4.
Hypothesis order43 : x4 < x3.
Hypothesis above : x4 + 15 / 10 * (x4 - x1) < x3.
Hypothesis not_below : x1 - 15 / 10 * (x4 - x1) <= x0.

Let s : list fval := [Fin x0; Fin x1; Fin x2; Fin x3; Fin x4].

Lemma fourth_sorted :
  sort (dropna s) = [Fin x0; Fin x1; Fin x2; Fin x4; Fin x3].
Proof. unfold s. feval. reflexivity. Qed.

Lemma fourth_outliers : high_outliers s = [3%nat] /\ low_outliers s = [].
Proof.
  destruct (whiskers_of_five s _ _ _ _ _ fourth_sorted) as [_ [Hu Hl]].
  unfold high_outliers, low_outliers. unfold s at 2 4.
  cbn [iteritems length seq combine outlier_loop].
  rewrite Hu, Hl. feval. split; reflexivity.
Qed.

End FourthIsHigh.

(** *** The scenario: readings 400, 405, 410, 500, 415 K *)

Lemma scenario_temps :
  df_temp scenario = [Fin 400; Fin 405; Fin 410; Fin 500; Fin 415].
Proof. unfold scenario. now rewrite kiln_with_temp. Qed.

Lemma scenario_losses :
  df_total_loss scenario production =
  [Fin (scenario_loss 400); Fin (scenario_loss 405); Fin (scenario_loss 410);
   Fin (scenario_loss 500); Fin (scenario_loss 415)].
Proof.
  unfold df_total_loss. rewrite loss_of_map, scenario_temps. cbn [map].
  unfold scenario. rewrite !kiln_with_loss by lra. reflexivity.
Qed.

Lemma scenario_loss_increasing T1 T2 :
  302 < T1 -> T1 < T2 -> scenario_loss T1 < scenario_loss T2.
Proof. apply kiln_with_loss_increasing. Qed.

Lemma scenario_loss_shape T :
  scenario_loss T = PI * (475 / 100) / production * shape T.
Proof. apply kiln_with_loss_shape. Qed.

Lemma scenario_scale_pos : 0 < PI * (475 / 100) / production.
Proof. pose proof PI_RGT_0. unfold production. apply Rdiv_lt_0_compat; lra. Qed.

Lemma scenario_shape_above :
  shape 415 + 15 / 10 * (shape 415 - shape 405) < shape 500.
Proof.
  pose proof natural_factor_415 as H1.
  assert (H2 : natural_factor 302 415 < natural_factor 302 500)
    by (apply natural_factor_increasing; lra).
  pose proof (natural_factor_pos 302 405) as H3.
  unfold shape, STEFAN_BOLTZMANN_CONSTANT. lra.
Qed.

Lemma scenario_shape_not_below :
  shape 405 - 15 / 10 * (shape 415 - shape 405) <= shape 400.
Proof.
  pose proof natural_factor_405_400 as H1.
  pose proof natural_factor_415 as H2.
  assert (H3 : natural_factor 302 400 < natural_factor 302 405)
    by (apply natural_factor_increasing; lra).
  assert (H4 : natural_factor 302 405 < natural_factor 302 415)
    by (apply natural_factor_increasing; lra).
  pose proof (natural_factor_pos 302 400) as H5.
  unfold shape, STEFAN_BOLTZMANN_CONSTANT. lra.
Qed.

Lemma scenario_outliers :
  high_outliers (df_total_loss scenario production) = [3%nat] /\
  low_outliers (df_total_loss scenario production) = [].
Proof.
  rewrite scenario_losses.
  pose proof scenario_scale_pos as Hk.
  pose proof scenario_shape_above as Ha.
  pose proof scenario_shape_not_below as Hb.
  set (K := PI * (475 / 100) / production) in *.
  apply fourth_outliers; try (apply scenario_loss_increasing; lra);
    rewrite !scenario_loss_shape; fold K; nra.
Qed.

Lemma scenario_mediantemp : mediantemp scenario production = Fin (4075 / 10).
Proof.
  unfold mediantemp. destruct scenario_outliers as [-> ->].
  rewrite scenario_temps. cbn. unfold median, sort, dropna.
  feval; f_equal; lra.
Qed.

Lemma scenario_new_temp :
  df_new_temp scenario production =
  [Fin 400; Fin 405; Fin 410; Fin (4075 / 10); Fin 415].
Proof.
  unfold df_new_temp. fold (mediantemp scenario production).
  rewrite scenario_mediantemp. destruct scenario_outliers as [-> _].
  rewrite scenario_temps. reflexivity.
Qed.

Lemma scenario_totals :
  exists total new_total,
    total_loss scenario production = Fin total /\
    new_total_loss scenario production = Fin new_total /\
    new_total < total.
Proof.
  exists (0 + scenario_loss 400 + scenario_loss 405 + scenario_loss 410
          + scenario_loss 500 + scenario_loss 415),
    (0 + scenario_loss 400 + scenario_loss 405 + scenario_loss 410
     + scenario_loss (4075 / 10) + scenario_loss 415).
  split; [| split].
  - unfold total_loss. rewrite scenario_losses. reflexivity.
  - unfold new_total_loss, df_new_total_loss.
    fold (df_new_temp scenario production).
    rewrite loss_of_map, scenario_new_temp. cbn [map].
    unfold scenario. rewrite !kiln_with_loss by lra. reflexivity.
  - assert (scenario_loss (4075 / 10) < scenario_loss 500)
      by (apply scenario_loss_increasing; lra).
    lra.
Qed.

(** C6: in the scenario with readings 400, 405, 410, 500, 415 K (ambient
    302 K, diameter 4.75 m, velocity 1 m/s, emissivity 0.77, interval 1 m,
    290000 kg/hr) the high outliers are exactly index 3, the corrected
    temperature there is 407.5 K, and the total loss after the correction
    is strictly below the original total loss. *)
Theorem scenario_outcome :
  high_outliers (df_total_loss scenario production) = [3%nat] /\
  nth_error (df_new_temp scenario production) 3 = Some (Fin (4075 / 10)) /\
  flt (new_total_loss scenario production) (total_loss scenario production) = true.
Proof.
  split; [apply scenario_outliers |]. split.
  - rewrite scenario_new_temp. reflexivity.
  - destruct scenario_totals as [t [nt [-> [-> H]]]]. now apply flt_Fin.
Qed.

(** ** Readings below the ambient temperature *)

Lemma natural_convection_below_ambient k T :
  T < ambient_temp k -> natural_convection k (Fin T) = NaN.
Proof.
  intros HT. unfold natural_convection.
  assert (E : fpow (fsub (Fin T) (Fin (ambient_temp k))) (1333 / 1000) = NaN).
  { cbn [fsub fneg fadd]. unfold fpow.
    destruct (Rlt_dec 0 (T + - ambient_temp k)); [lra |].
    destruct (Rlt_dec (T + - ambient_temp k) 0); [reflexivity | lra]. }
  rewrite E.
  destruct (fpow (fdiv (fadd (Fin T) (Fin (ambient_temp k))) (Fin 2))
                 (- (724 / 1000))); reflexivity.
Qed.

Lemma convection_row_below_ambient k T :
  ambient_velocity k < 3 -> T < ambient_temp k ->
  convection k [Fin T] = [NaN].
Proof.
  intros Hv HT. unfold convection.
  destruct (Rlt_dec (ambient_velocity k) 3); [| lra].
  cbn [map]. now rewrite natural_convection_below_ambient.
Qed.

Lemma convection_at_below_ambient k col i T :
  ambient_velocity k < 3 -> nth_error col i = Some (Fin T) ->
  T < ambient_temp k ->
  nth_error (convection k col) i = Some NaN.
Proof.
  intros Hv Hi HT. rewrite convection_map, nth_error_map, Hi. cbn.
  unfold convection_at. destruct (Rlt_dec (ambient_velocity k) 3); [| lra].
  now rewrite natural_convection_below_ambient.
Qed.

(** C2, as amended: in the natural-convection regime (ambient velocity
    below 3) a reading below the ambient temperature raises no error: the
    convection column is computed, and its value in that row is NaN. *)
Theorem convection_below_ambient_is_nan (k : Kiln) (col : list fval)
    (i : nat) (T : R) :
  ambient_velocity k < 3 -> nth_error col i = Some (Fin T) ->
  T < ambient_temp k ->
  length (convection k col) = length col /\
  nth_error (convection k col) i = Some NaN.
Proof.
  intros Hv Hi HT. split.
  - now rewrite convection_map, length_map.
  - now apply convection_at_below_ambient with T.
Qed.

Lemma cold_reading_losses : df_total_loss cold_reading production = [NaN].
Proof.
  unfold df_total_loss. rewrite loss_of_map.
  unfold cold_reading. rewrite kiln_with_temp. cbn [map]. f_equal.
  unfold loss_at, convection_at.
  destruct (Rlt_dec (ambient_velocity (kiln_with [300])) 3) as [_ | H];
    [| exfalso; apply H; cbn; lra].
  rewrite natural_convection_below_ambient by (cbn; lra).
  cbn [fdiv].
  destruct (fdiv (radiation_at (kiln_with [300]) (Fin 300)) (Fin production));
    reflexivity.
Qed.

(** C2, the claim as stated fails: with one reading of 300 K under an
    ambient temperature of 302 K and velocity 1 m/s, the convection column
    is NaN, no error stops the run, and the run ends with the ordinary
    "no high outliers" summary and a total loss of 0. *)
Lemma cold_reading_no_error :
  convection cold_reading (df_temp cold_reading) = [NaN] /\
  analyse cold_reading production = NoHighOutliers (Fin 0) [].
Proof.
  split.
  - unfold cold_reading. rewrite kiln_with_temp. cbn [map].
    apply convection_row_below_ambient; cbn; lra.
  - unfold analyse, total_loss. rewrite cold_reading_losses. reflexivity.
Qed.

(** ** The constructor on an uploaded sheet *)

Lemma average_no_columns f :
  columns_count f = 0%nat -> Forall (fun row => row = []) (rows f) ->
  average f = map (fun _ => NaN) (rows f).
Proof.
  intros Hc Hr. unfold average. rewrite Hc.
  induction Hr as [| row l Hrow _ IH]; [reflexivity |].
  cbn [map]. rewrite IH, Hrow. f_equal.
  unfold skipna_sum. cbn. unfold fdiv, inf_times.
  destruct (Req_dec_T 0 0); [| lra].
  destruct (Rlt_dec 0 0); [lra | reflexivity].
Qed.

Lemma Kiln_init_zero_columns d v Ta u e i f :
  columns_count f = 0%nat -> Forall (fun row => row = []) (rows f) ->
  df_temp (Kiln_init d v Ta u e i f) = map (fun _ => NaN) (rows f) /\
  length (df_length (Kiln_init d v Ta u e i f)) = length (rows f).
Proof.
  intros Hc Hr. split.
  - cbn [Kiln_init df_temp]. rewrite (average_no_columns f Hc Hr), map_map.
    apply map_ext. intros _. destruct u; reflexivity.
  - cbn [Kiln_init df_length]. unfold lengths. now rewrite length_map, length_seq.
Qed.

Lemma range_len_rows (interval : Z) (n : nat) :
  (1 <= interval)%Z ->
  range_len interval (interval * Z.of_nat n + 1) interval = n.
Proof.
  intros Hi. unfold range_len.
  destruct (Z.ltb_spec 0 interval) as [_ | H]; [| lia].
  destruct n as [| n].
  - replace (interval * Z.of_nat 0 + 1)%Z with 1%Z by lia.
    destruct (Z.ltb_spec interval 1); [lia | reflexivity].
  - destruct (Z.ltb_spec interval (interval * Z.of_nat (S n) + 1)) as [_ | H];
      [| nia].
    replace (interval * Z.of_nat (S n) + 1 - interval - 1)%Z
      with (Z.of_nat n * interval)%Z by lia.
    rewrite Z.div_mul by lia. lia.
Qed.

Lemma py_range_lengths (interval : Z) (n : nat) :
  (1 <= interval)%Z ->
  py_range interval (interval * Z.of_nat n + 1) interval = lengths interval n.
Proof.
  intros Hi. unfold py_range, lengths. rewrite range_len_rows by assumption.
  rewrite <- seq_shift, map_map. apply map_ext. intros m. lia.
Qed.

(** On a sheet without text cells and for an interval of at least 1, the
    call returns the kiln of [Kiln_init]. *)
Lemma Kiln_init_outcome_numbers d v Ta u e i df :
  has_text df = false -> (1 <= i)%Z ->
  Kiln_init_outcome d v Ta u e i df
  = Returned (Kiln_init d v Ta u e i (frame_of df)).
Proof.
  intros Ht Hi. unfold Kiln_init_outcome, sheet_average. rewrite Ht.
  cbn [bind]. destruct (Z.eqb_spec i 0) as [E | _]; [lia |].
  rewrite py_range_lengths by assumption.
  assert (El : length (lengths i (length (sheet_rows df)))
               = length (sheet_rows df))
    by (unfold lengths; now rewrite length_map, length_seq).
  rewrite El, Nat.eqb_refl. unfold Kiln_init, frame_of. cbn [rows].
  now rewrite length_map.
Qed.

Lemma no_cells_no_text df :
  Forall (fun row => row = []) (sheet_rows df) -> has_text df = false.
Proof.
  unfold has_text. intros H.
  induction H as [| row l Hrow _ IH]; [reflexivity |].
  cbn [existsb]. now rewrite Hrow, IH.
Qed.

Lemma no_cells_frame df :
  Forall (fun row => row = []) (sheet_rows df) ->
  Forall (fun row => row = []) (rows (frame_of df)).
Proof.
  unfold frame_of. cbn [rows]. intros H.
  induction H as [| row l Hrow _ IH]; constructor; [now rewrite Hrow | exact IH].
Qed.

Lemma Kiln_init_outcome_no_columns d v Ta u e i df :
  (1 <= i)%Z -> sheet_columns df = 0%nat ->
  Forall (fun row => row = []) (sheet_rows df) ->
  exists k, Kiln_init_outcome d v Ta u e i df = Returned k /\
            df_temp k = map (fun _ => NaN) (sheet_rows df).
Proof.
  intros Hi Hc Hr. exists (Kiln_init d v Ta u e i (frame_of df)).
  split; [apply Kiln_init_outcome_numbers; [now apply no_cells_no_text | exact Hi] |].
  destruct (Kiln_init_zero_columns d v Ta u e i (frame_of df) Hc
              (no_cells_frame df Hr)) as [H _].
  rewrite H. unfold frame_of. cbn [rows]. now rewrite map_map.
Qed.

Lemma is_text_fill c : is_text (skipna_fill c) = is_text c.
Proof. destruct c as [[| | |] |]; reflexivity. Qed.

Lemma existsb_text_fill row :
  existsb is_text (map skipna_fill row) = existsb is_text row.
Proof.
  induction row as [| c row IH]; [reflexivity |].
  cbn [map existsb]. now rewrite is_text_fill, IH.
Qed.

(** Adding up a row either raises TypeError or, when the row holds a text,
    gives a text. *)
Lemma object_fold_cases acc row :
  object_fold acc row = Raised TypeError \/
  exists s, object_fold acc row = Returned s /\
            (is_text acc || existsb is_text row = true -> is_text s = true).
Proof.
  revert acc; induction row as [| c row IH]; intros acc.
  - right. exists acc. split; [reflexivity |].
    cbn [existsb]. now rewrite orb_false_r.
  - cbn [object_fold existsb].
    destruct acc as [x | s], c as [y | s']; cbn [py_add bind is_text];
      try (left; reflexivity).
    + destruct (IH (Number (fadd x y))) as [H | [r [H Hr]]]; [left; exact H |].
      right. exists r. split; [exact H |]. cbn [is_text orb] in *. exact Hr.
    + destruct (IH (Text (s ++ s'))) as [H | [r [H Hr]]]; [left; exact H |].
      right. exists r. split; [exact H |]. intros _. apply Hr. reflexivity.
Qed.

Lemma object_sum_cases row :
  object_sum row = Raised TypeError \/
  exists s, object_sum row = Returned s /\
            (existsb is_text row = true -> is_text s = true).
Proof.
  unfold object_sum. rewrite <- (existsb_text_fill row).
  destruct (map skipna_fill row) as [| c rest].
  - right. eexists. split; [reflexivity |]. cbn. discriminate.
  - cbn [existsb]. apply object_fold_cases.
Qed.

Lemma sums_cases table :
  for_each object_sum table = Raised TypeError \/
  exists sums, for_each object_sum table = Returned sums /\
               (existsb (existsb is_text) table = true ->
                existsb is_text sums = true).
Proof.
  induction table as [| row table IH].
  - right. exists []. split; [reflexivity |]. cbn. discriminate.
  - cbn [for_each existsb].
    destruct (object_sum_cases row) as [-> | [s [-> Hs]]]; [left; reflexivity |].
    cbn [bind].
    destruct IH as [-> | [sums [-> Hsums]]]; [left; reflexivity |].
    right. exists (s :: sums). split; [reflexivity |].
    cbn [existsb]. intros H. apply orb_true_iff in H. apply orb_true_iff.
    destruct H as [H | H]; [left; now apply Hs | right; now apply Hsums].
Qed.

Lemma divide_text sums n :
  existsb is_text sums = true ->
  for_each (fun s => py_div s n) sums = Raised TypeError.
Proof.
  induction sums as [| s sums IH]; [discriminate |].
  cbn [existsb for_each]. destruct s as [x | s]; cbn [is_text py_div bind orb].
  - intros H. now rewrite (IH H).
  - reflexivity.
Qed.

(** With a text cell somewhere in the table, the row averages raise
    TypeError: in a row sum, or in the division of a sum that is a text. *)
Lemma sheet_average_text df :
  has_text df = true -> sheet_average df = Raised TypeError.
Proof.
  intros Ht. unfold sheet_average. rewrite Ht.
  destruct (sums_cases (sheet_rows df)) as [-> | [sums [-> Hs]]]; [reflexivity |].
  cbn [bind]. apply divide_text, Hs, Ht.
Qed.

Lemma Kiln_init_outcome_text d v Ta u e i df :
  has_text df = true -> Kiln_init_outcome d v Ta u e i df = Raised TypeError.
Proof.
  intros Ht. unfold Kiln_init_outcome. now rewrite (sheet_average_text df Ht).
Qed.



(** ** The forced-convection regime and a reading of 0 K *)

Lemma loss_at_forced k c T :
  3 <= ambient_velocity k -> 0 < T * ambient_temp k -> c <> 0 ->
  loss_at k c (Fin T) = Fin (forced_loss k c T).
Proof.
  intros Hv HT Hc.
  unfold loss_at, radiation_at, convection_at, forced_convection, forced_loss.
  destruct (Rlt_dec (ambient_velocity k) 3); [lra |].
  cbn [fpow4 fsub fneg fadd fmul]. unfold fpow.
  destruct (Rlt_dec 0 (T * ambient_temp k)); [| lra].
  cbn [fmul]. unfold fdiv.
  destruct (Req_dec_T c 0); [contradiction |].
  cbn [fadd]. reflexivity.
Qed.

Lemma loss_at_forced_zero k c :
  3 <= ambient_velocity k -> 0 < ambient_temp k -> 0 < section_area k ->
  0 < c ->
  loss_at k c (Fin 0) = NInf.
Proof.
  intros Hv Ha HA Hc.
  pose proof (Rpower_pos (ambient_velocity k) (805 / 1000)) as Hp1.
  pose proof (Rpower_pos (diameter k) (- (195 / 1000))) as Hp2.
  unfold loss_at, radiation_at, convection_at, forced_convection.
  destruct (Rlt_dec (ambient_velocity k) 3); [lra |].
  cbn [fpow4 fsub fneg fadd fmul]. unfold fpow.
  destruct (Rlt_dec 0 (0 * ambient_temp k)); [lra |].
  destruct (Rlt_dec (0 * ambient_temp k) 0); [lra |].
  destruct (Rlt_dec 0 (- (351 / 1000))); [lra |].
  feval; reflexivity.
Qed.

Lemma forced_factor_increasing Ta T1 T2 :
  0 < Ta -> Ta < T1 -> T1 < T2 ->
  Rpower (T1 * Ta) (- (351 / 1000)) * (T1 - Ta)
  < Rpower (T2 * Ta) (- (351 / 1000)) * (T2 - Ta).
Proof.
  intros Ha H1 H2.
  replace (Rpower (T1 * Ta) (- (351 / 1000)) * (T1 - Ta))
    with (exp (- (351 / 1000) * ln (T1 * Ta) + ln (T1 - Ta)))
    by (rewrite exp_plus, exp_ln by lra; reflexivity).
  replace (Rpower (T2 * Ta) (- (351 / 1000)) * (T2 - Ta))
    with (exp (- (351 / 1000) * ln (T2 * Ta) + ln (T2 - Ta)))
    by (rewrite exp_plus, exp_ln by lra; reflexivity).
  apply exp_increasing.
  assert (Hu1 : 0 < T1 * Ta) by nra.
  assert (Hu2 : 0 < T2 * Ta) by nra.
  assert (Hv : ln (T1 - Ta) < ln (T2 - Ta)) by (apply ln_increasing; lra).
  assert (Hc : ln (T2 * Ta) + ln (T1 - Ta) <= ln (T2 - Ta) + ln (T1 * Ta)).
  { rewrite <- !ln_mult by lra. apply ln_monotone; nra. }
  lra.
Qed.

Lemma forced_loss_increasing k c T1 T2 :
  0 <= emissivity k -> 0 < section_area k -> 0 < c ->
  0 < ambient_temp k -> ambient_temp k < T1 -> T1 < T2 ->
  forced_loss k c T1 < forced_loss k c T2.
Proof.
  intros He HA Hc Ha H1 H2. unfold forced_loss.
  pose proof (forced_factor_increasing (ambient_temp k) T1 T2 Ha H1 H2) as Hf.
  pose proof (Rpower_pos (ambient_velocity k) (805 / 1000)) as Hp1.
  pose proof (Rpower_pos (diameter k) (- (195 / 1000))) as Hp2.
  assert (Hp : T1 ^ 4 < T2 ^ 4) by (apply pow4_increasing; lra).
  assert (Hs : 0 < STEFAN_BOLTZMANN_CONSTANT)
    by (unfold STEFAN_BOLTZMANN_CONSTANT; lra).
  assert (Hr : emissivity k * section_area k * STEFAN_BOLTZMANN_CONSTANT
               * (T1 ^ 4 - ambient_temp k ^ 4)
               <= emissivity k * section_area k * STEFAN_BOLTZMANN_CONSTANT
                  * (T2 ^ 4 - ambient_temp k ^ 4)).
  { apply Rmult_le_compat_l; [| lra].
    repeat apply Rmult_le_pos; lra. }
  set (g1 := Rpower (T1 * ambient_temp k) (- (351 / 1000))) in *.
  set (g2 := Rpower (T2 * ambient_temp k) (- (351 / 1000))) in *.
  set (pv := Rpower (ambient_velocity k) (805 / 1000)) in *.
  set (pd := Rpower (diameter k) (- (195 / 1000))) in *.
  assert (Hn : 2803 / 100 * g1 * pv * pd * (T1 - ambient_temp k) * section_area k
               < 2803 / 100 * g2 * pv * pd * (T2 - ambient_temp k) * section_area k).
  { apply Rmult_lt_compat_r; [assumption |].
    replace (2803 / 100 * g1 * pv * pd * (T1 - ambient_temp k))
      with (2803 / 100 * pv * pd * (g1 * (T1 - ambient_temp k))) by ring.
    replace (2803 / 100 * g2 * pv * pd * (T2 - ambient_temp k))
      with (2803 / 100 * pv * pd * (g2 * (T2 - ambient_temp k))) by ring.
    apply Rmult_lt_compat_l; [| assumption].
    repeat apply Rmult_lt_0_compat; lra. }
  unfold Rdiv. rewrite <- !Rmult_plus_distr_r.
  apply Rmult_lt_compat_r; [now apply Rinv_0_lt_compat | lra].
Qed.

Section FrozenRow.

Variables a b : R.
Hypothesis a_lt_b : a < b.

Let s : list fval := [NInf; Fin a; Fin a; Fin a; Fin b].

Lemma frozen_sorted : sort (dropna s) = s.
Proof. unfold s. feval. reflexivity. Qed.

Lemma frozen_whiskers : upper_whisker s = Fin a /\ lower_whisker s = Fin a.
Proof.
  assert (H1 : Q1 s = Fin a).
  { unfold Q1, quantile. rewrite frozen_sorted. unfold s.
    cbv [length Nat.sub]. rewrite Zfloor_quarter_of_4. simpl. f_equal; lra. }
  assert (H3 : Q3 s = Fin a).
  { unfold Q3, quantile. rewrite frozen_sorted. unfold s.
    cbv [length Nat.sub]. rewrite Zfloor_three_quarters_of_4. simpl.
    f_equal; lra. }
  unfold upper_whisker, lower_whisker, IQR. rewrite H1, H3. simpl.
  split; f_equal; lra.
Qed.

Lemma frozen_outliers : high_outliers s = [4%nat] /\ low_outliers s = [0%nat].
Proof.
  destruct frozen_whiskers as [Hu Hl].
  unfold high_outliers, low_outliers. unfold s at 2 4.
  cbn [iteritems length seq combine outlier_loop].
  rewrite Hu, Hl. feval. split; reflexivity.
Qed.

End FrozenRow.

Lemma frozen_temps :
  df_temp frozen = [Fin 0; Fin 400; Fin 400; Fin 400; Fin 1000].
Proof. unfold frozen. now rewrite Kiln_init_kelvin_temp. Qed.

Lemma frozen_area_pos : 0 < section_area frozen.
Proof. cbn. pose proof PI_RGT_0. lra. Qed.

Lemma frozen_order : frozen400 < frozen1000.
Proof.
  apply forced_loss_increasing; try apply frozen_area_pos;
    cbn; unfold production; lra.
Qed.

Lemma frozen_loss_at T :
  302 < T -> loss_at frozen production (Fin T) = Fin (forced_loss frozen production T).
Proof.
  intros HT. apply loss_at_forced; cbn; unfold production; lra.
Qed.

Lemma frozen_loss_at_zero : loss_at frozen production (Fin 0) = NInf.
Proof.
  apply loss_at_forced_zero; try apply frozen_area_pos;
    cbn; unfold production; lra.
Qed.

Lemma frozen_losses :
  df_total_loss frozen production =
  [NInf; Fin frozen400; Fin frozen400; Fin frozen400; Fin frozen1000].
Proof.
  unfold df_total_loss. rewrite loss_of_map, frozen_temps. cbn [map].
  rewrite frozen_loss_at_zero, !frozen_loss_at by lra. reflexivity.
Qed.

Lemma frozen_run_outliers :
  high_outliers (df_total_loss frozen production) = [4%nat] /\
  low_outliers (df_total_loss frozen production) = [0%nat].
Proof. rewrite frozen_losses. apply frozen_outliers, frozen_order. Qed.

Lemma frozen_new_temp :
  df_new_temp frozen production = [Fin 0; Fin 400; Fin 400; Fin 400; Fin 400].
Proof.
  unfold df_new_temp. destruct frozen_run_outliers as [Hh Hl].
  assert (Hm : mediantemp frozen production = Fin 400).
  { unfold mediantemp. rewrite Hh, Hl, frozen_temps. cbn.
    unfold median, sort, dropna. feval; reflexivity. }
  fold (mediantemp frozen production). rewrite Hm, Hh, frozen_temps.
  reflexivity.
Qed.

Lemma frozen_totals :
  total_loss frozen production = NInf /\ new_total_loss frozen production = NInf.
Proof.
  split.
  - unfold total_loss. rewrite frozen_losses. reflexivity.
  - unfold new_total_loss, df_new_total_loss.
    fold (df_new_temp frozen production).
    rewrite loss_of_map, frozen_new_temp. cbn [map].
    rewrite frozen_loss_at_zero, !frozen_loss_at by lra. reflexivity.
Qed.

(** C5, the claim as stated fails: with readings 0, 400, 400, 400, 1000 K
    and an ambient velocity of 3 m/s, the last row is a high outlier, both
    totals are -inf, and the savings are NaN, which is not <= 0; the run
    ends with the "something is wrong" message all the same. *)
Lemma warning_without_nonpositive_savings :
  high_outliers (df_total_loss frozen production) <> [] /\
  savings frozen production = NaN /\
  analyse frozen production = SomethingIsWrong NInf NInf.
Proof.
  destruct frozen_run_outliers as [Hh _]. destruct frozen_totals as [Ht Hn].
  assert (Hs : savings frozen production = NaN).
  { unfold savings. fold (new_total_loss frozen production).
    rewrite Ht, Hn. reflexivity. }
  split; [rewrite Hh; discriminate |]. split; [exact Hs |].
  rewrite analyse_cases by (rewrite Hh; discriminate).
  rewrite Hs, Ht, Hn. reflexivity.
Qed.

(** * Instances of the theorems on concrete runs *)

Lemma outlier_sets_disjoint_witness :
  In 4%nat (high_outliers [Fin 1; Fin 1; Fin 1; Fin 1; Fin 100]) /\
  ~ In 4%nat (low_outliers [Fin 1; Fin 1; Fin 1; Fin 1; Fin 100]).
Proof.
  assert (H : In 4%nat (high_outliers [Fin 1; Fin 1; Fin 1; Fin 1; Fin 100])).
  { assert (Hlt : 1 < 100) by lra.
    destruct (hot_spot_outliers 1 100 Hlt) as [Hh _].
    rewrite Hh. simpl. auto. }
  split; [exact H |].
  exact (outlier_sets_disjoint [Fin 1; Fin 1; Fin 1; Fin 1; Fin 100] 4 H).
Defined.

Lemma constant_series_no_outliers_witness :
  (forall x, In x [Fin 5; Fin 5; Fin 5] -> x = Fin 5) /\
  high_outliers [Fin 5; Fin 5; Fin 5] = [] /\
  low_outliers [Fin 5; Fin 5; Fin 5] = [].
Proof.
  assert (H : forall x, In x [Fin 5; Fin 5; Fin 5] -> x = Fin 5).
  { intros x [<- | [<- | [<- | []]]]; reflexivity. }
  split; [exact H |].
  exact (constant_series_no_outliers [Fin 5; Fin 5; Fin 5] (Fin 5) H).
Defined.

Lemma small_spot_has_high_outliers :
  high_outliers (df_total_loss small_spot production) <> [].
Proof. rewrite small_spot_high. discriminate. Qed.

Lemma new_temp_frame_witness :
  high_outliers (df_total_loss small_spot production) <> [] /\
  length (df_new_temp small_spot production) = length (df_temp small_spot) /\
  (forall i, ~ In i (high_outliers (df_total_loss small_spot production)) ->
             nth_error (df_new_temp small_spot production) i
             = nth_error (df_temp small_spot) i) /\
  (forall i, In i (high_outliers (df_total_loss small_spot production)) ->
             nth_error (df_new_temp small_spot production) i =
             Some (median (map snd
                     (filter (kept (high_outliers (df_total_loss small_spot production))
                                   (low_outliers (df_total_loss small_spot production)))
                             (iteritems (df_temp small_spot)))))).
Proof.
  split; [exact small_spot_has_high_outliers |].
  exact (new_temp_frame small_spot production small_spot_has_high_outliers).
Defined.

Lemma small_spot_first_row_kept :
  ~ In 0%nat (high_outliers (df_total_loss small_spot production)).
Proof. rewrite small_spot_high. simpl. intros [H | []]. discriminate. Qed.

Lemma new_losses_frame_witness :
  ~ In 0%nat (high_outliers (df_total_loss small_spot production)) /\
  nth_error (df_new_radiation small_spot production) 0
  = nth_error (df_radiation small_spot production) 0 /\
  nth_error (df_new_convection small_spot production) 0
  = nth_error (df_convection small_spot production) 0 /\
  nth_error (df_new_total_loss small_spot production) 0
  = nth_error (df_total_loss small_spot production) 0.
Proof.
  split; [exact small_spot_first_row_kept |].
  exact (new_losses_frame small_spot production 0 small_spot_first_row_kept).
Defined.

Lemma warning_iff_savings_not_positive_witness :
  high_outliers (df_total_loss small_spot production) <> [] /\
  (analyse small_spot production
   = SomethingIsWrong (total_loss small_spot production)
                      (new_total_loss small_spot production)
   <-> fgt (savings small_spot production) (Fin 0) = false) /\
  (forall s, savings small_spot production = Fin s ->
             (analyse small_spot production
              = SomethingIsWrong (total_loss small_spot production)
                                 (new_total_loss small_spot production)
              <-> s <= 0)).
Proof.
  split; [exact small_spot_has_high_outliers |].
  exact (warning_iff_savings_not_positive small_spot production
           small_spot_has_high_outliers).
Defined.

Lemma repair_cost_in_summary_witness :
  high_outliers (df_total_loss small_spot production) <> [] /\
  fgt (savings small_spot production) (Fin 0) = true /\
  analyse small_spot production =
  Summary (total_loss small_spot production)
          (low_outliers (df_total_loss small_spot production))
          (high_outliers (df_total_loss small_spot production))
          (savings small_spot production)
          (fsub (money_saved_per_year (savings small_spot production) production)
                (Fin (IZR (Zfloor (314 / 100
                                   * (diameter small_spot * 1000 - 2 * 16 - 220)
                                   / (715 / 10))
                           * 5
                           * Z.of_nat (length (high_outliers
                                                 (df_total_loss small_spot production)))
                           * 100)))).
Proof.
  split; [exact small_spot_has_high_outliers |].
  split; [exact small_spot_savings_positive |].
  exact (repair_cost_in_summary small_spot production
           small_spot_has_high_outliers small_spot_savings_positive).
Defined.

Lemma cold_reading_velocity : ambient_velocity cold_reading < 3.
Proof. cbn. lra. Qed.

Lemma cold_reading_below_ambient : 300 < ambient_temp cold_reading.
Proof. cbn. lra. Qed.

Lemma cold_reading_row : nth_error (df_temp cold_reading) 0 = Some (Fin 300).
Proof. unfold cold_reading. now rewrite kiln_with_temp. Qed.

Lemma convection_below_ambient_is_nan_witness :
  ambient_velocity cold_reading < 3 /\
  nth_error (df_temp cold_reading) 0 = Some (Fin 300) /\
  300 < ambient_temp cold_reading /\
  length (convection cold_reading (df_temp cold_reading))
  = length (df_temp cold_reading) /\
  nth_error (convection cold_reading (df_temp cold_reading)) 0 = Some NaN.
Proof.
  split; [exact cold_reading_velocity |].
  split; [exact cold_reading_row |].
  split; [exact cold_reading_below_ambient |].
  exact (convection_below_ambient_is_nan cold_reading (df_temp cold_reading) 0 300
           cold_reading_velocity cold_reading_row cold_reading_below_ambient).
Defined.


(** * Further properties of the script *)

(** ** Losses of a row at and around the ambient temperature *)

Lemma radiation_at_ambient k : radiation_at k (Fin (ambient_temp k)) = Fin 0.
Proof. unfold radiation_at. cbn. f_equal. ring. Qed.

Lemma convection_at_ambient k :
  0 < ambient_temp k -> convection_at k (Fin (ambient_temp k)) = Fin 0.
Proof.
  intros Ha. unfold convection_at, natural_convection, forced_convection.
  destruct (Rlt_dec (ambient_velocity k) 3).
  - cbn [fsub fneg fadd]. unfold fdiv.
    destruct (Req_dec_T 2 0); [lra |]. unfold fpow.
    destruct (Rlt_dec 0 ((ambient_temp k + ambient_temp k) / 2)); [| lra].
    destruct (Rlt_dec 0 (ambient_temp k + - ambient_temp k)); [lra |].
    destruct (Rlt_dec (ambient_temp k + - ambient_temp k) 0); [lra |].
    destruct (Rlt_dec 0 (1333 / 1000)); [| lra].
    cbn. f_equal. ring.
  - cbn [fsub fneg fadd fmul]. unfold fpow.
    destruct (Rlt_dec 0 (ambient_temp k * ambient_temp k)); [| nra].
    cbn. f_equal. ring.
Qed.

Lemma loss_at_ambient k c :
  0 < ambient_temp k -> c <> 0 -> loss_at k c (Fin (ambient_temp k)) = Fin 0.
Proof.
  intros Ha Hc. unfold loss_at.
  rewrite radiation_at_ambient, convection_at_ambient by assumption.
  unfold fdiv. destruct (Req_dec_T c 0); [contradiction |].
  cbn. f_equal. field. assumption.
Qed.

(** X1: a row whose temperature is the ambient temperature has radiation
    loss 0, whatever the kiln. *)
Theorem radiation_zero_at_ambient (k : Kiln) (col : list fval) (i : nat) :
  nth_error col i = Some (Fin (ambient_temp k)) ->
  nth_error (radiation k col) i = Some (Fin 0).
Proof.
  intros Hi. rewrite radiation_map, nth_error_map, Hi. cbn [option_map].
  now rewrite radiation_at_ambient.
Qed.

Lemma ambient_row : nth_error [Fin 400; Fin 302] 1 = Some (Fin (ambient_temp small_spot)).
Proof. reflexivity. Qed.

Lemma radiation_zero_at_ambient_witness :
  nth_error [Fin 400; Fin 302] 1 = Some (Fin (ambient_temp small_spot)) /\
  nth_error (radiation small_spot [Fin 400; Fin 302]) 1 = Some (Fin 0).
Proof.
  split; [exact ambient_row |].
  exact (radiation_zero_at_ambient small_spot [Fin 400; Fin 302] 1 ambient_row).
Defined.

Lemma kiln_with_in_ranges temps : in_widget_ranges (kiln_with temps).
Proof.
  pose proof PI_above_3141. pose proof PI_below_3142.
  unfold in_widget_ranges. rewrite kiln_with_area. cbn. repeat split; lra.
Qed.

Lemma production_is_in_range : production_in_range production.
Proof. unfold production_in_range, production. lra. Qed.

Lemma small_spot_in_ranges : in_widget_ranges small_spot.
Proof. apply kiln_with_in_ranges. Qed.

(** X2: the sign of the radiation loss follows the temperature (no
    clamping).  For a configuration in the widget ranges with an
    emissivity of at least 0.01 and a reading between 1 K and 10000 K, the
    radiation loss of the row is finite; it is positive when the reading
    is at least 0.01 K above the ambient temperature and negative when it
    is at least 0.01 K below. *)
Theorem radiation_sign (k : Kiln) (col : list fval) (i : nat) (T : R) :
  in_widget_ranges k -> 1 / 100 <= emissivity k ->
  nth_error col i = Some (Fin T) -> 1 <= T <= 10000 ->
  exists x, nth_error (radiation k col) i = Some (Fin x) /\
            (ambient_temp k + 1 / 100 <= T -> 0 < x) /\
            (T + 1 / 100 <= ambient_temp k -> x < 0).
Proof.
  intros [_ [_ [Ha [_ HA]]]] He Hi HT.
  rewrite radiation_map, nth_error_map, Hi. cbn [option_map].
  unfold radiation_at. cbn [fpow4 fsub fneg fadd fmul].
  eexists; split; [reflexivity |].
  assert (Hs : 0 < STEFAN_BOLTZMANN_CONSTANT)
    by (unfold STEFAN_BOLTZMANN_CONSTANT; lra).
  assert (HK : 0 < emissivity k * section_area k * STEFAN_BOLTZMANN_CONSTANT)
    by (apply Rmult_lt_0_compat; [apply Rmult_lt_0_compat |]; lra).
  split; intros Hlt.
  - assert (H0 : 0 <= ambient_temp k) by lra.
    assert (H1 : ambient_temp k < T) by lra.
    pose proof (pow4_increasing _ _ H0 H1). apply Rmult_lt_0_compat; lra.
  - assert (H0 : 0 <= T) by lra.
    assert (H1 : T < ambient_temp k) by lra.
    pose proof (pow4_increasing _ _ H0 H1).
    assert (0 < emissivity k * section_area k * STEFAN_BOLTZMANN_CONSTANT
                * (ambient_temp k ^ 4 - T ^ 4))
      by (apply Rmult_lt_0_compat; lra).
    lra.
Qed.

Lemma small_spot_emissivity : 1 / 100 <= emissivity small_spot.
Proof. cbn. lra. Qed.

Lemma hot_row : nth_error [Fin 400; Fin 302] 0 = Some (Fin 400).
Proof. reflexivity. Qed.

Lemma reading_400_in_range : 1 <= 400 <= 10000.
Proof. lra. Qed.

Lemma radiation_sign_witness :
  in_widget_ranges small_spot /\ 1 / 100 <= emissivity small_spot /\
  nth_error [Fin 400; Fin 302] 0 = Some (Fin 400) /\ 1 <= 400 <= 10000 /\
  exists x, nth_error (radiation small_spot [Fin 400; Fin 302]) 0 = Some (Fin x) /\
            (ambient_temp small_spot + 1 / 100 <= 400 -> 0 < x) /\
            (400 + 1 / 100 <= ambient_temp small_spot -> x < 0).
Proof.
  split; [exact small_spot_in_ranges |]. split; [exact small_spot_emissivity |].
  split; [exact hot_row |]. split; [exact reading_400_in_range |].
  exact (radiation_sign small_spot [Fin 400; Fin 302] 0 400 small_spot_in_ranges
           small_spot_emissivity hot_row reading_400_in_range).
Defined.

(** X3: in the natural regime (ambient velocity below 3), for a
    configuration in the widget ranges, a reading above the ambient
    temperature and of at most 10000 K has a finite, strictly positive
    convection loss. *)
Theorem natural_convection_positive (k : Kiln) (col : list fval) (i : nat)
    (T : R) :
  in_widget_ranges k -> ambient_velocity k < 3 ->
  nth_error col i = Some (Fin T) -> ambient_temp k < T <= 10000 ->
  exists x, nth_error (convection k col) i = Some (Fin x) /\ 0 < x.
Proof.
  intros [_ [_ [Ha [_ HA]]]] Hv Hi HT.
  rewrite convection_map, nth_error_map, Hi. cbn [option_map].
  unfold convection_at, natural_convection.
  destruct (Rlt_dec (ambient_velocity k) 3); [| lra].
  cbn [fsub fneg fadd]. unfold fdiv.
  destruct (Req_dec_T 2 0); [lra |]. unfold fpow.
  destruct (Rlt_dec 0 ((T + ambient_temp k) / 2)); [| lra].
  destruct (Rlt_dec 0 (T + - ambient_temp k)); [| lra].
  cbn [fmul]. eexists; split; [reflexivity |].
  pose proof (Rpower_pos ((T + ambient_temp k) / 2) (- (724 / 1000))).
  pose proof (Rpower_pos (T + - ambient_temp k) (1333 / 1000)).
  repeat apply Rmult_lt_0_compat; lra.
Qed.

Lemma small_spot_velocity : ambient_velocity small_spot < 3.
Proof. cbn. lra. Qed.

Lemma small_spot_hot : ambient_temp small_spot < 400.
Proof. cbn. lra. Qed.

Lemma small_spot_hot_in_range : ambient_temp small_spot < 400 <= 10000.
Proof. cbn. lra. Qed.

Lemma natural_convection_positive_witness :
  in_widget_ranges small_spot /\ ambient_velocity small_spot < 3 /\
  nth_error [Fin 400; Fin 302] 0 = Some (Fin 400) /\
  ambient_temp small_spot < 400 <= 10000 /\
  exists x, nth_error (convection small_spot [Fin 400; Fin 302]) 0 = Some (Fin x)
            /\ 0 < x.
Proof.
  split; [exact small_spot_in_ranges |]. split; [exact small_spot_velocity |].
  split; [exact hot_row |]. split; [exact small_spot_hot_in_range |].
  exact (natural_convection_positive small_spot [Fin 400; Fin 302] 0 400
           small_spot_in_ranges small_spot_velocity hot_row
           small_spot_hot_in_range).
Defined.

(** ** A kiln at the ambient temperature *)

Lemma constant_series_empty_outliers losses v :
  (forall x, In x losses -> x = v) ->
  high_outliers losses = [] /\ low_outliers losses = [].
Proof.
  intros Hc. destruct (constant_series_whiskers losses v Hc) as [Hu Hl].
  split.
  - destruct (high_outliers losses) as [| i l] eqn:E; auto.
    assert (Hi : In i (high_outliers losses)) by (rewrite E; simpl; auto).
    apply high_outliers_spec in Hi. destruct Hi as [x [Hx Hgt]].
    apply nth_error_In in Hx. rewrite (Hc x Hx) in Hgt. congruence.
  - destruct (low_outliers losses) as [| i l] eqn:E; auto.
    assert (Hi : In i (low_outliers losses)) by (rewrite E; simpl; auto).
    apply low_outliers_spec in Hi. destruct Hi as [x [Hx Hlt]].
    apply nth_error_In in Hx. rewrite (Hc x Hx) in Hlt. congruence.
Qed.

Lemma fold_fadd_zeros l a :
  (forall x, In x l -> x = Fin 0) -> fold_left fadd l (Fin a) = Fin a.
Proof.
  revert a; induction l as [| x l IH]; intros a H; [reflexivity |].
  cbn [fold_left]. rewrite (H x) by (simpl; auto). cbn [fadd].
  rewrite Rplus_0_r. apply IH. intros; apply H; simpl; auto.
Qed.

Lemma skipna_sum_zeros l :
  (forall x, In x l -> x = Fin 0) -> skipna_sum l = Fin 0.
Proof.
  intros H. unfold skipna_sum. apply fold_fadd_zeros.
  intros x Hx. apply filter_In in Hx. apply H, Hx.
Qed.

(** X4: for a configuration and a production rate in the widget ranges
    (ambient temperature at least 1 K), when every reading equals the
    ambient temperature, every row has total loss 0 in both convection
    regimes, no row is an outlier, and the run ends with the "no high
    outliers" summary and a total loss of 0. *)
Theorem run_at_ambient (k : Kiln) (c : R) :
  in_widget_ranges k -> production_in_range c ->
  (forall x, In x (df_temp k) -> x = Fin (ambient_temp k)) ->
  (forall x, In x (df_total_loss k c) -> x = Fin 0) /\
  low_outliers (df_total_loss k c) = [] /\
  analyse k c = NoHighOutliers (Fin 0) [].
Proof.
  intros [_ [_ [Ha _]]] Hc Ht. unfold production_in_range in Hc.
  assert (Hz : forall x, In x (df_total_loss k c) -> x = Fin 0).
  { intros x Hx. unfold df_total_loss in Hx. rewrite loss_of_map in Hx.
    apply in_map_iff in Hx. destruct Hx as [T [<- HT]].
    rewrite (Ht T HT). apply loss_at_ambient; lra. }
  destruct (constant_series_empty_outliers _ _ Hz) as [Hh Hl].
  split; [exact Hz |]. split; [exact Hl |].
  unfold analyse. rewrite Hh, Hl. unfold total_loss.
  now rewrite skipna_sum_zeros.
Qed.

Lemma at_ambient_temps :
  forall x, In x (df_temp at_ambient) -> x = Fin (ambient_temp at_ambient).
Proof.
  unfold at_ambient. rewrite kiln_with_temp.
  intros x [<- | [<- | [<- | []]]]; reflexivity.
Qed.

Lemma at_ambient_in_ranges : in_widget_ranges at_ambient.
Proof. apply kiln_with_in_ranges. Qed.

Lemma run_at_ambient_witness :
  in_widget_ranges at_ambient /\ production_in_range production /\
  (forall x, In x (df_temp at_ambient) -> x = Fin (ambient_temp at_ambient)) /\
  (forall x, In x (df_total_loss at_ambient production) -> x = Fin 0) /\
  low_outliers (df_total_loss at_ambient production) = [] /\
  analyse at_ambient production = NoHighOutliers (Fin 0) [].
Proof.
  split; [exact at_ambient_in_ranges |]. split; [exact production_is_in_range |].
  split; [exact at_ambient_temps |].
  exact (run_at_ambient at_ambient production at_ambient_in_ranges
           production_is_in_range at_ambient_temps).
Defined.

(** ** Hotter rows lose more *)

Lemma loss_at_regime k c T :
  0 < ambient_temp k -> ambient_temp k < T -> c <> 0 ->
  loss_at k c (Fin T) = Fin (regime_loss k c T).
Proof.
  intros Ha HT Hc. unfold regime_loss.
  destruct (Rlt_dec (ambient_velocity k) 3).
  - apply loss_at_natural; lra.
  - apply loss_at_forced; try lra. nra.
Qed.

Lemma regime_loss_increasing k c T1 T2 :
  0 <= emissivity k -> 0 < section_area k -> 0 < c ->
  0 < ambient_temp k -> ambient_temp k < T1 -> T1 < T2 ->
  regime_loss k c T1 < regime_loss k c T2.
Proof.
  intros. unfold regime_loss. destruct (Rlt_dec (ambient_velocity k) 3).
  - apply natural_loss_increasing; lra.
  - apply forced_loss_increasing; lra.
Qed.

(** X5: for a configuration and a production rate in the widget ranges,
    the total loss per kg of a row is finite and grows with its
    temperature, in both convection regimes: of two rows above the
    ambient temperature and of at most 10000 K, one at least 0.01 K
    hotter than the other has the strictly larger loss. *)
Theorem hotter_row_loses_more (k : Kiln) (c : R) (i j : nat) (Ti Tj : R) :
  in_widget_ranges k -> production_in_range c ->
  nth_error (df_temp k) i = Some (Fin Ti) ->
  nth_error (df_temp k) j = Some (Fin Tj) ->
  ambient_temp k < Ti -> Ti + 1 / 100 <= Tj -> Tj <= 10000 ->
  exists x y, nth_error (df_total_loss k c) i = Some (Fin x) /\
              nth_error (df_total_loss k c) j = Some (Fin y) /\ x < y.
Proof.
  intros [_ [_ [Ha [He HA]]]] Hc Hi Hj H1 H2 H3.
  unfold production_in_range in Hc.
  exists (regime_loss k c Ti), (regime_loss k c Tj).
  unfold df_total_loss. rewrite loss_of_map, !nth_error_map, Hi, Hj.
  cbn [option_map]. rewrite !loss_at_regime by lra.
  repeat split. apply regime_loss_increasing; lra.
Qed.

Lemma production_positive : 0 < production.
Proof. unfold production. lra. Qed.

Lemma small_spot_row0 : nth_error (df_temp small_spot) 0 = Some (Fin 400).
Proof. now rewrite small_spot_temps. Qed.

Lemma small_spot_row4 : nth_error (df_temp small_spot) 4 = Some (Fin 405).
Proof. now rewrite small_spot_temps. Qed.

Lemma hotter_row_loses_more_witness :
  in_widget_ranges small_spot /\ production_in_range production /\
  nth_error (df_temp small_spot) 0 = Some (Fin 400) /\
  nth_error (df_temp small_spot) 4 = Some (Fin 405) /\
  ambient_temp small_spot < 400 /\ 400 + 1 / 100 <= 405 /\ 405 <= 10000 /\
  exists x y, nth_error (df_total_loss small_spot production) 0 = Some (Fin x) /\
              nth_error (df_total_loss small_spot production) 4 = Some (Fin y) /\
              x < y.
Proof.
  assert (H : 400 + 1 / 100 <= 405) by lra.
  assert (H' : 405 <= 10000) by lra.
  split; [exact small_spot_in_ranges |]. split; [exact production_is_in_range |].
  split; [exact small_spot_row0 |]. split; [exact small_spot_row4 |].
  split; [exact small_spot_hot |]. split; [exact H |]. split; [exact H' |].
  exact (hotter_row_loses_more small_spot production 0 4 400 405
           small_spot_in_ranges production_is_in_range small_spot_row0
           small_spot_row4 small_spot_hot H H').
Defined.

(** ** The constructor: lengths and row averages *)

(** X6: for an interval of at least 1 (the slider gives 1 to 10), the
    length column is Python's [range(interval, interval*rows_count+1,
    interval)]: it has exactly one entry per row, so the insertion into the
    table fits, and the entry of row [i] is [interval * (i + 1)]. *)
Theorem length_column (d v Ta : R) (u : unit_tag) (e : R) (interval : Z)
    (f : frame) :
  (1 <= interval)%Z ->
  df_length (Kiln_init d v Ta u e interval f)
  = py_range interval (interval * Z.of_nat (length (rows f)) + 1) interval /\
  length (df_length (Kiln_init d v Ta u e interval f))
  = length (df_temp (Kiln_init d v Ta u e interval f)) /\
  forall i, (i < length (rows f))%nat ->
            nth_error (df_length (Kiln_init d v Ta u e interval f)) i
            = Some (interval * (Z.of_nat i + 1))%Z.
Proof.
  intros Hi. cbn [Kiln_init df_length df_temp]. unfold py_range, lengths, average.
  rewrite range_len_rows by assumption.
  split; [| split].
  - rewrite <- seq_shift, map_map. apply map_ext. intros n. lia.
  - now rewrite !length_map, length_seq.
  - intros i Hlt. rewrite nth_error_map, nth_error_seq.
    destruct (Nat.ltb_spec i (length (rows f))); [| lia].
    cbn. f_equal. lia.
Qed.

Lemma length_column_witness :
  (1 <= 2)%Z /\
  df_length celsius_kiln
  = py_range 2 (2 * Z.of_nat (length (rows (readings [100; 120; 90]))) + 1) 2 /\
  length (df_length celsius_kiln) = length (df_temp celsius_kiln) /\
  forall i : nat, (i < length (rows (readings [100; 120; 90]%R)))%nat ->
                  nth_error (df_length celsius_kiln) i
                  = Some (2 * (Z.of_nat i + 1))%Z.
Proof.
  assert (H : (1 <= 2)%Z) by lia.
  split; [exact H |].
  exact (length_column (475 / 100) 1 29 Celsius (77 / 100) 2
           (readings [100; 120; 90]) H).
Defined.

Lemma fold_fadd_cells row a :
  fold_left fadd (filter (fun x => negb (is_nan x)) (map cell row)) (Fin a)
  = Fin (a + present_sum row).
Proof.
  revert a; induction row as [| [x |] row IH]; intros a; cbn.
  - f_equal; lra.
  - rewrite IH. f_equal; lra.
  - apply IH.
Qed.

Lemma present_sum_bounds row M :
  0 <= M -> (forall x, In (Some x) row -> 0 <= x <= M) ->
  0 <= present_sum row <= M * INR (length row).
Proof.
  intros HM. induction row as [| [x |] row IH]; intros H.
  - cbn. lra.
  - assert (Hx : 0 <= x <= M) by (apply H; simpl; auto).
    assert (IH' : 0 <= present_sum row <= M * INR (length row))
      by (apply IH; intros; apply H; simpl; auto).
    cbn [present_sum length]. rewrite S_INR. lra.
  - assert (IH' : 0 <= present_sum row <= M * INR (length row))
      by (apply IH; intros; apply H; simpl; auto).
    cbn [present_sum length]. rewrite S_INR. lra.
Qed.

Lemma present_sum_gap row M :
  0 <= M -> (forall x, In (Some x) row -> 0 <= x <= M) -> In None row ->
  present_sum row <= M * (INR (length row) - 1).
Proof.
  intros HM. induction row as [| [x |] row IH]; intros H Hn.
  - destruct Hn.
  - destruct Hn as [Hn | Hn]; [discriminate |].
    assert (Hx : 0 <= x <= M) by (apply H; simpl; auto).
    assert (IH' : present_sum row <= M * (INR (length row) - 1))
      by (apply IH; [intros; apply H; simpl; auto | exact Hn]).
    cbn [present_sum length]. rewrite S_INR. lra.
  - assert (Hb : 0 <= present_sum row <= M * INR (length row))
      by (apply present_sum_bounds; [exact HM | intros; apply H; simpl; auto]).
    cbn [present_sum length]. rewrite S_INR. lra.
Qed.

Lemma present_sum_empty row :
  (forall c, In c row -> c = None) -> present_sum row = 0.
Proof.
  induction row as [| c row IH]; intros H; [reflexivity |].
  rewrite (H c) by (simpl; auto). cbn [present_sum].
  apply IH. intros; apply H; simpl; auto.
Qed.

(** X7: an empty cell is not left out of the mean of its row, it counts
    as 0.  For a table of at most 16384 columns, in a row with an empty
    cell whose readings lie between 0 and a bound M (between 1 and 10^6),
    the mean, before the 273 added for Celsius input, is at least 0 and
    strictly below M; and a row of empty cells only gets the mean 0, that
    is 0 K, or 273 K for Celsius input, not NaN. *)
Theorem row_temperature (d v Ta : R) (u : unit_tag) (e : R) (interval : Z)
    (f : frame) (i : nat) (row : list (option R)) (M : R) :
  (0 < columns_count f)%nat -> (Z.of_nat (columns_count f) <= 16384)%Z ->
  length row = columns_count f ->
  nth_error (rows f) i = Some (map cell row) ->
  In None row -> 1 <= M <= 1000000 ->
  (forall x, In (Some x) row -> 0 <= x <= M) ->
  exists x,
    nth_error (df_temp (Kiln_init d v Ta u e interval f)) i
    = Some (Fin (x + match u with Kelvin => 0 | Celsius => 273 end)) /\
    0 <= x < M /\
    ((forall c, In c row -> c = None) -> x = 0).
Proof.
  intros Hn _ Hlen Hi Hgap HM Hb.
  exists (present_sum row / INR (columns_count f)).
  assert (Hpos : 0 < INR (columns_count f)) by (apply lt_0_INR; lia).
  split; [| split].
  - cbn [Kiln_init df_temp]. unfold average.
    rewrite !nth_error_map, Hi. cbn [option_map]. f_equal.
    unfold skipna_sum. rewrite fold_fadd_cells. unfold fdiv.
    destruct (Req_dec_T (INR (columns_count f)) 0); [lra |].
    destruct u; cbn; f_equal; lra.
  - assert (H0 : 0 <= M) by lra.
    pose proof (present_sum_bounds row M H0 Hb) as [Hlo _].
    pose proof (present_sum_gap row M H0 Hb Hgap) as Hhi.
    rewrite Hlen in Hhi. split.
    + apply Rmult_le_pos; [exact Hlo |]. left. now apply Rinv_0_lt_compat.
    + apply Rmult_lt_reg_r with (INR (columns_count f)); [exact Hpos |].
      unfold Rdiv. rewrite Rmult_assoc, Rinv_l by lra. lra.
  - intros Hall. rewrite (present_sum_empty row Hall). unfold Rdiv. ring.
Qed.

Lemma with_gap_columns : (0 < columns_count with_gap)%nat.
Proof. cbn. lia. Qed.

Lemma with_gap_width : (Z.of_nat (columns_count with_gap) <= 16384)%Z.
Proof. cbn. lia. Qed.

Lemma with_gap_length : length [Some 400; None] = columns_count with_gap.
Proof. reflexivity. Qed.

Lemma with_gap_row : nth_error (rows with_gap) 0 = Some (map cell [Some 400; None]).
Proof. reflexivity. Qed.

Lemma with_gap_empty_cell : In None [Some 400; None].
Proof. simpl. auto. Qed.

Lemma with_gap_bound : 1 <= 400 <= 1000000.
Proof. lra. Qed.

Lemma with_gap_readings : forall x, In (Some x) [Some 400; None] -> 0 <= x <= 400.
Proof.
  intros x [H | [H | []]]; [| discriminate]. injection H as <-. lra.
Qed.

Lemma row_temperature_witness :
  (0 < columns_count with_gap)%nat /\
  (Z.of_nat (columns_count with_gap) <= 16384)%Z /\
  length [Some 400; None] = columns_count with_gap /\
  nth_error (rows with_gap) 0 = Some (map cell [Some 400; None]) /\
  In None [Some 400; None] /\ 1 <= 400 <= 1000000 /\
  (forall x, In (Some x) [Some 400; None] -> 0 <= x <= 400) /\
  exists x,
    nth_error (df_temp (Kiln_init (475 / 100) 1 302 Kelvin (77 / 100) 1 with_gap)) 0
    = Some (Fin (x + 0)) /\
    0 <= x < 400 /\
    ((forall c, In c [Some 400; None] -> c = None) -> x = 0).
Proof.
  split; [exact with_gap_columns |]. split; [exact with_gap_width |].
  split; [exact with_gap_length |]. split; [exact with_gap_row |].
  split; [exact with_gap_empty_cell |]. split; [exact with_gap_bound |].
  split; [exact with_gap_readings |].
  exact (row_temperature (475 / 100) 1 302 Kelvin (77 / 100) 1 with_gap 0
           [Some 400; None] 400 with_gap_columns with_gap_width with_gap_length
           with_gap_row with_gap_empty_cell with_gap_bound with_gap_readings).
Defined.

(** ** The outlier lists as filters *)

Lemma outlier_loop_fst s items high low :
  fst (outlier_loop s items high low)
  = high ++ map fst (filter (fun p => fgt (snd p) (upper_whisker s)) items).
Proof.
  revert high low; induction items as [| [j x] items IH]; intros high low.
  - cbn. now rewrite app_nil_r.
  - cbn [outlier_loop filter snd]. rewrite IH.
    destruct (fgt x (upper_whisker s)); cbn [map fst]; [| reflexivity].
    now rewrite <- app_assoc.
Qed.

Lemma outlier_loop_snd s items high low :
  snd (outlier_loop s items high low)
  = low ++ map fst (filter (fun p => flt (snd p) (lower_whisker s)) items).
Proof.
  revert high low; induction items as [| [j x] items IH]; intros high low.
  - cbn. now rewrite app_nil_r.
  - cbn [outlier_loop filter snd]. rewrite IH.
    destruct (flt x (lower_whisker s)); cbn [map fst]; [| reflexivity].
    now rewrite <- app_assoc.
Qed.

Lemma filter_labelled (P : fval -> bool) (l : list fval) (start : nat) :
  map fst (filter (fun p => P (snd p)) (combine (seq start (length l)) l))
  = filter (fun i => P (nth (i - start) l NaN)) (seq start (length l)).
Proof.
  revert start; induction l as [| x l IH]; intros start; [reflexivity |].
  assert (E : filter (fun i => P (nth (i - start) (x :: l) NaN)) (seq (S start) (length l))
              = filter (fun i => P (nth (i - S start) l NaN)) (seq (S start) (length l))).
  { apply filter_ext_in. intros i Hi. apply in_seq in Hi.
    replace (i - start)%nat with (S (i - S start)) by lia. reflexivity. }
  cbn [length seq combine filter snd]. rewrite E, Nat.sub_diag. cbn [nth].
  destruct (P x); cbn [map fst]; rewrite IH; reflexivity.
Qed.

Lemma high_outliers_filter losses :
  high_outliers losses
  = filter (fun i => fgt (nth i losses NaN) (upper_whisker losses))
           (seq 0 (length losses)).
Proof.
  unfold high_outliers, iteritems. rewrite outlier_loop_fst. cbn [app].
  rewrite (filter_labelled (fun x => fgt x (upper_whisker losses))).
  apply filter_ext. intros i. now rewrite Nat.sub_0_r.
Qed.

Lemma low_outliers_filter losses :
  low_outliers losses
  = filter (fun i => flt (nth i losses NaN) (lower_whisker losses))
           (seq 0 (length losses)).
Proof.
  unfold low_outliers, iteritems. rewrite outlier_loop_snd. cbn [app].
  rewrite (filter_labelled (fun x => flt x (lower_whisker losses))).
  apply filter_ext. intros i. now rewrite Nat.sub_0_r.
Qed.

(** X9: the loop over the rows builds the filters of the row indices: the
    high outliers are the indices, in increasing order, of the losses
    above the upper whisker, the low outliers those of the losses below
    the lower whisker; both lists have no repetition and hold indices of
    the table only. *)
Theorem outliers_are_filters (losses : list fval) :
  high_outliers losses
  = filter (fun i => fgt (nth i losses NaN) (upper_whisker losses))
           (seq 0 (length losses)) /\
  low_outliers losses
  = filter (fun i => flt (nth i losses NaN) (lower_whisker losses))
           (seq 0 (length losses)) /\
  NoDup (high_outliers losses) /\ NoDup (low_outliers losses) /\
  Forall (fun i => (i < length losses)%nat)
         (high_outliers losses ++ low_outliers losses).
Proof.
  pose proof (high_outliers_filter losses) as Hh.
  pose proof (low_outliers_filter losses) as Hl.
  split; [exact Hh |]. split; [exact Hl |].
  split; [rewrite Hh; apply NoDup_filter, seq_NoDup |].
  split; [rewrite Hl; apply NoDup_filter, seq_NoDup |].
  apply Forall_forall. intros i Hi. apply in_app_or in Hi.
  destruct Hi as [Hi | Hi]; [rewrite Hh in Hi | rewrite Hl in Hi];
    apply filter_In in Hi; destruct Hi as [Hi _]; apply in_seq in Hi; lia.
Qed.

(** ** Rows without a loss value *)

Lemma dropna_idempotent l : dropna (dropna l) = dropna l.
Proof.
  unfold dropna. induction l as [| x l IH]; [reflexivity |].
  cbn. destruct (is_nan x) eqn:E; cbn; [assumption |].
  rewrite E. cbn. now rewrite IH.
Qed.

Lemma quantile_dropna l q : quantile (dropna l) q = quantile l q.
Proof. unfold quantile. now rewrite dropna_idempotent. Qed.

(** X10: a row whose loss is NaN (a reading below the ambient temperature
    in the natural regime, for one) is never a high and never a low
    outlier, and the two whiskers are those of the series without its NaN
    values. *)
Theorem nan_row_is_no_outlier (losses : list fval) (i : nat) :
  nth_error losses i = Some NaN ->
  ~ In i (high_outliers losses) /\ ~ In i (low_outliers losses) /\
  upper_whisker (dropna losses) = upper_whisker losses /\
  lower_whisker (dropna losses) = lower_whisker losses.
Proof.
  intros Hi. repeat split.
  - intros H. apply high_outliers_spec in H. destruct H as [x [Hx Hgt]].
    assert (x = NaN) by congruence. subst x.
    unfold fgt in Hgt. destruct (upper_whisker losses); discriminate.
  - intros H. apply low_outliers_spec in H. destruct H as [x [Hx Hlt]].
    assert (x = NaN) by congruence. subst x. discriminate.
  - unfold upper_whisker, IQR, Q1, Q3. now rewrite !quantile_dropna.
  - unfold lower_whisker, IQR, Q1, Q3. now rewrite !quantile_dropna.
Qed.

Lemma nan_in_second_row : nth_error [Fin 1; NaN; Fin 2] 1 = Some NaN.
Proof. reflexivity. Qed.

Lemma nan_row_is_no_outlier_witness :
  nth_error [Fin 1; NaN; Fin 2] 1 = Some NaN /\
  ~ In 1%nat (high_outliers [Fin 1; NaN; Fin 2]) /\
  ~ In 1%nat (low_outliers [Fin 1; NaN; Fin 2]) /\
  upper_whisker (dropna [Fin 1; NaN; Fin 2]) = upper_whisker [Fin 1; NaN; Fin 2] /\
  lower_whisker (dropna [Fin 1; NaN; Fin 2]) = lower_whisker [Fin 1; NaN; Fin 2].
Proof.
  split; [exact nan_in_second_row |].
  exact (nan_row_is_no_outlier [Fin 1; NaN; Fin 2] 1 nan_in_second_row).
Defined.

(** ** Series of finite losses *)

Lemma fle_Fin a b : fle (Fin a) (Fin b) = true <-> a <= b.
Proof.
  unfold fle, flt. destruct (Rlt_dec b a); cbn; split; intros;
    try discriminate; try reflexivity; lra.
Qed.

Lemma finite_at_position ap q :
  ap <> [] -> (forall y, In y ap -> exists r, y = Fin r) -> 0 <= q <= 1 ->
  exists r, at_position ap q = Fin r.
Proof.
  intros Hne Hf Hq.
  assert (Hlen : (1 <= length ap)%nat) by (destruct ap; simpl; [congruence | lia]).
  unfold at_position.
  destruct (floor_position q (length ap - 1) Hq) as [_ Hb].
  set (b := Z.to_nat (Zfloor (q * INR (length ap - 1)))) in *.
  destruct (Hf (nth b ap NaN)) as [x Hx]; [apply nth_In; lia |].
  destruct (Hf (nth (Nat.min (b + 1) (length ap - 1)) ap NaN)) as [y Hy];
    [apply nth_In; lia |].
  rewrite Hx, Hy. cbn. eexists; reflexivity.
Qed.

Section FiniteSeries.

Variable losses : list fval.
Hypothesis some_row : losses <> [].
Hypothesis all_finite : forall x, In x losses -> exists r, x = Fin r.

Lemma finite_sorted_finite :
  forall y, In y (sort (dropna losses)) -> exists r, y = Fin r.
Proof. intros y Hy. apply sort_In, dropna_In in Hy. apply all_finite, Hy. Qed.

Lemma finite_sorted_numbers :
  forall y, In y (sort (dropna losses)) -> is_nan y = false.
Proof. intros y Hy. apply sort_In, dropna_In in Hy. apply Hy. Qed.

Lemma finite_sorted_nonempty : sort (dropna losses) <> [].
Proof.
  destruct losses as [| x l] eqn:E; [congruence |].
  assert (Hx : In x (sort (dropna (x :: l)))).
  { apply sort_In, dropna_In. split; [simpl; auto |].
    destruct (all_finite x) as [r ->]; [simpl; auto | reflexivity]. }
  intros H. rewrite H in Hx. destruct Hx.
Qed.

Lemma finite_quantile q :
  0 <= q <= 1 ->
  exists r a b, quantile losses q = Fin r /\
                In (Fin a) losses /\ In (Fin b) losses /\ a <= r <= b.
Proof.
  intros Hq. rewrite quantile_at_position.
  pose proof finite_sorted_nonempty as Hne.
  destruct (sort (dropna losses)) as [| x l] eqn:E; [congruence |].
  rewrite <- E in *.
  destruct (finite_at_position _ q Hne finite_sorted_finite Hq) as [r Hr].
  destruct (at_position_within (sort (dropna losses)) q) as [a [b [Ha [Hb [H1 H2]]]]];
    auto using sort_sorted, finite_sorted_numbers.
  { rewrite Hr; reflexivity. }
  destruct (finite_sorted_finite a Ha) as [ra ->].
  destruct (finite_sorted_finite b Hb) as [rb ->].
  rewrite Hr in *. apply fle_Fin in H1. apply fle_Fin in H2.
  apply sort_In, dropna_In in Ha. apply sort_In, dropna_In in Hb.
  exists r, ra, rb. tauto.
Qed.

Lemma finite_fences :
  exists q1 q3 a b,
    Q1 losses = Fin q1 /\ Q3 losses = Fin q3 /\ q1 <= q3 /\
    lower_whisker losses = Fin (q1 - 15 / 10 * (q3 - q1)) /\
    upper_whisker losses = Fin (q3 + 15 / 10 * (q3 - q1)) /\
    In (Fin a) losses /\ a <= q1 /\ In (Fin b) losses /\ q3 <= b.
Proof.
  destruct (finite_quantile (25 / 100)) as [q1 [a [_ [H1 [Ha [_ [Ha1 _]]]]]]];
    [lra |].
  destruct (finite_quantile (75 / 100)) as [q3 [_ [b [H3 [_ [Hb [_ Hb3]]]]]]];
    [lra |].
  fold (Q1 losses) in H1. fold (Q3 losses) in H3.
  assert (Hq : q1 <= q3).
  { pose proof (quartiles_ordered losses) as Ho. rewrite H1, H3 in Ho.
    apply fle_Fin, Ho; reflexivity. }
  exists q1, q3, a, b.
  unfold lower_whisker, upper_whisker, IQR. rewrite H1, H3. cbn.
  repeat split; auto; f_equal; lra.
Qed.

End FiniteSeries.

(** X11: for a non-empty series of finite losses the two quartiles are
    finite, Q1 <= Q3, the whiskers are the finite numbers
    Q1 - 1.5 (Q3 - Q1) and Q3 + 1.5 (Q3 - Q1), so that
    lower whisker <= Q1 <= Q3 <= upper whisker, and the quartiles lie
    within the range of the series. *)
Theorem fences_enclose_quartiles (losses : list fval) :
  losses <> [] -> (forall x, In x losses -> exists r, x = Fin r) ->
  exists q1 q3 lo hi a b,
    Q1 losses = Fin q1 /\ Q3 losses = Fin q3 /\
    lower_whisker losses = Fin lo /\ upper_whisker losses = Fin hi /\
    lo <= q1 /\ q1 <= q3 /\ q3 <= hi /\
    In (Fin a) losses /\ a <= q1 /\ In (Fin b) losses /\ q3 <= b.
Proof.
  intros Hne Hf.
  destruct (finite_fences losses Hne Hf)
    as [q1 [q3 [a [b [H1 [H3 [Hq [Hl [Hu [Ha [Ha1 [Hb Hb3]]]]]]]]]]]].
  exists q1, q3, (q1 - 15 / 10 * (q3 - q1)), (q3 + 15 / 10 * (q3 - q1)), a, b.
  repeat split; auto; lra.
Qed.

Lemma five_losses_nonempty : [Fin 1; Fin 1; Fin 1; Fin 1; Fin 100] <> [].
Proof. discriminate. Qed.

Lemma five_losses_finite :
  forall x, In x [Fin 1; Fin 1; Fin 1; Fin 1; Fin 100] -> exists r, x = Fin r.
Proof.
  intros x [<- | [<- | [<- | [<- | [<- | []]]]]]; eexists; reflexivity.
Qed.

Lemma fences_enclose_quartiles_witness :
  [Fin 1; Fin 1; Fin 1; Fin 1; Fin 100] <> [] /\
  (forall x, In x [Fin 1; Fin 1; Fin 1; Fin 1; Fin 100] -> exists r, x = Fin r) /\
  exists q1 q3 lo hi a b,
    Q1 [Fin 1; Fin 1; Fin 1; Fin 1; Fin 100] = Fin q1 /\
    Q3 [Fin 1; Fin 1; Fin 1; Fin 1; Fin 100] = Fin q3 /\
    lower_whisker [Fin 1; Fin 1; Fin 1; Fin 1; Fin 100] = Fin lo /\
    upper_whisker [Fin 1; Fin 1; Fin 1; Fin 1; Fin 100] = Fin hi /\
    lo <= q1 /\ q1 <= q3 /\ q3 <= hi /\
    In (Fin a) [Fin 1; Fin 1; Fin 1; Fin 1; Fin 100] /\ a <= q1 /\
    In (Fin b) [Fin 1; Fin 1; Fin 1; Fin 1; Fin 100] /\ q3 <= b.
Proof.
  split; [exact five_losses_nonempty |]. split; [exact five_losses_finite |].
  exact (fences_enclose_quartiles [Fin 1; Fin 1; Fin 1; Fin 1; Fin 100]
           five_losses_nonempty five_losses_finite).
Defined.

(** X12: in a series of finite losses, a row with the smallest loss is
    never a high outlier and a row with the largest loss is never a low
    outlier; so the detector never flags every row as high, nor every row
    as low. *)
Theorem extreme_rows_not_flagged (losses : list fval) (i j : nat) (a b : R) :
  (forall x, In x losses -> exists r, x = Fin r) ->
  nth_error losses i = Some (Fin a) ->
  (forall x, In (Fin x) losses -> a <= x) ->
  nth_error losses j = Some (Fin b) ->
  (forall x, In (Fin x) losses -> x <= b) ->
  ~ In i (high_outliers losses) /\ ~ In j (low_outliers losses).
Proof.
  intros Hf Hi Hmin Hj Hmax.
  assert (Hne : losses <> []) by (intros ->; destruct i; discriminate).
  destruct (finite_fences losses Hne Hf)
    as [q1 [q3 [a' [b' [H1 [H3 [Hq [Hl [Hu [Ha [Ha1 [Hb Hb3]]]]]]]]]]]].
  pose proof (Hmin a' Ha) as Hlow. pose proof (Hmax b' Hb) as Hhigh.
  split; intros H.
  - apply high_outliers_spec in H. destruct H as [x [Hx Hgt]].
    assert (x = Fin a) by congruence. subst x.
    rewrite Hu in Hgt. apply flt_Fin in Hgt. lra.
  - apply low_outliers_spec in H. destruct H as [x [Hx Hlt]].
    assert (x = Fin b) by congruence. subst x.
    rewrite Hl in Hlt. apply flt_Fin in Hlt. lra.
Qed.

Lemma five_losses_first : nth_error [Fin 1; Fin 1; Fin 1; Fin 1; Fin 100] 0 = Some (Fin 1).
Proof. reflexivity. Qed.

Lemma five_losses_last : nth_error [Fin 1; Fin 1; Fin 1; Fin 1; Fin 100] 4 = Some (Fin 100).
Proof. reflexivity. Qed.

Lemma five_losses_min :
  forall x, In (Fin x) [Fin 1; Fin 1; Fin 1; Fin 1; Fin 100] -> 1 <= x.
Proof.
  intros x [H | [H | [H | [H | [H | []]]]]]; inversion H; lra.
Qed.

Lemma five_losses_max :
  forall x, In (Fin x) [Fin 1; Fin 1; Fin 1; Fin 1; Fin 100] -> x <= 100.
Proof.
  intros x [H | [H | [H | [H | [H | []]]]]]; inversion H; lra.
Qed.

Lemma extreme_rows_not_flagged_witness :
  (forall x, In x [Fin 1; Fin 1; Fin 1; Fin 1; Fin 100] -> exists r, x = Fin r) /\
  nth_error [Fin 1; Fin 1; Fin 1; Fin 1; Fin 100] 0 = Some (Fin 1) /\
  (forall x, In (Fin x) [Fin 1; Fin 1; Fin 1; Fin 1; Fin 100] -> 1 <= x) /\
  nth_error [Fin 1; Fin 1; Fin 1; Fin 1; Fin 100] 4 = Some (Fin 100) /\
  (forall x, In (Fin x) [Fin 1; Fin 1; Fin 1; Fin 1; Fin 100] -> x <= 100) /\
  ~ In 0%nat (high_outliers [Fin 1; Fin 1; Fin 1; Fin 1; Fin 100]) /\
  ~ In 4%nat (low_outliers [Fin 1; Fin 1; Fin 1; Fin 1; Fin 100]).
Proof.
  split; [exact five_losses_finite |]. split; [exact five_losses_first |].
  split; [exact five_losses_min |]. split; [exact five_losses_last |].
  split; [exact five_losses_max |].
  exact (extreme_rows_not_flagged [Fin 1; Fin 1; Fin 1; Fin 1; Fin 100] 0 4 1 100
           five_losses_finite five_losses_first five_losses_min
           five_losses_last five_losses_max).
Defined.

(** ** The sign of the repair cost *)

(** X13: the repair cost is a whole number of rings (a multiple of 500
    rupees); it is non-negative for a diameter of at least 0.252 m, and
    strictly negative for any damaged length when the diameter is below
    0.252 m (the diameter input starts at 0.01 m): the inner diameter less
    the brick height is negative there, and so is the floored brick
    count. *)
Theorem repair_cost_sign (d : R) (n : nat) :
  (0 < n)%nat ->
  (exists rings, repair_cost d n = (500 * rings)%Z) /\
  (252 <= d * 1000 -> (0 <= repair_cost d n)%Z) /\
  (d * 1000 < 252 -> (repair_cost d n < 0)%Z).
Proof.
  intros Hn. unfold repair_cost, RINGS_PER_METER, BRICK_COST.
  set (b := bricks_per_ring d).
  split; [exists (b * Z.of_nat n)%Z; lia |].
  unfold bricks_per_ring, internal_diameter, SHELL_THICKNESS, BRICK_HEIGHT in b.
  split; intros Hd.
  - assert (0 <= b)%Z by (apply (Zfloor_lub 0); cbn; lra). nia.
  - assert (b < 0)%Z.
    { apply lt_IZR.
      pose proof (Zfloor_bound (314 / 100 * (d * 1000 - 2 * 16 - 220) / (715 / 10))).
      fold b in H. lra. }
    nia.
Qed.

Lemma repair_cost_sign_witness :
  (0 < 1)%nat /\
  (exists rings, repair_cost (1 / 10) 1 = (500 * rings)%Z) /\
  (252 <= 1 / 10 * 1000 -> (0 <= repair_cost (1 / 10) 1)%Z) /\
  (1 / 10 * 1000 < 252 -> (repair_cost (1 / 10) 1 < 0)%Z).
Proof.
  assert (H : (0 < 1)%nat) by lia.
  split; [exact H |].
  exact (repair_cost_sign (1 / 10) 1 H).
Defined.

(** ** Repairs always save on sensible readings *)

Lemma loss_at_nan k c : loss_at k c NaN = NaN.
Proof. reflexivity. Qed.

Lemma regime_loss_pos k c T :
  0 <= emissivity k -> 0 < section_area k -> 0 < c ->
  0 < ambient_temp k -> ambient_temp k < T ->
  0 < regime_loss k c T.
Proof.
  intros He HA Hc Ha HT.
  assert (Hs : 0 < STEFAN_BOLTZMANN_CONSTANT)
    by (unfold STEFAN_BOLTZMANN_CONSTANT; lra).
  assert (Hp : ambient_temp k ^ 4 < T ^ 4) by (apply pow4_increasing; lra).
  assert (Hr : 0 <= emissivity k * section_area k * STEFAN_BOLTZMANN_CONSTANT
                    * (T ^ 4 - ambient_temp k ^ 4)).
  { repeat apply Rmult_le_pos; lra. }
  assert (Hic : 0 < / c) by now apply Rinv_0_lt_compat.
  unfold regime_loss. destruct (Rlt_dec (ambient_velocity k) 3).
  - unfold natural_loss.
    pose proof (natural_factor_pos (ambient_temp k) T) as Hf.
    assert (0 < 8033 / 100 * natural_factor (ambient_temp k) T * section_area k)
      by (apply Rmult_lt_0_compat; [apply Rmult_lt_0_compat |]; lra).
    unfold Rdiv. rewrite <- Rmult_plus_distr_r.
    apply Rmult_lt_0_compat; lra.
  - unfold forced_loss.
    pose proof (Rpower_pos (T * ambient_temp k) (- (351 / 1000))).
    pose proof (Rpower_pos (ambient_velocity k) (805 / 1000)).
    pose proof (Rpower_pos (diameter k) (- (195 / 1000))).
    assert (0 < 2803 / 100 * Rpower (T * ambient_temp k) (- (351 / 1000))
                * Rpower (ambient_velocity k) (805 / 1000)
                * Rpower (diameter k) (- (195 / 1000))
                * (T - ambient_temp k) * section_area k)
      by (apply Rmult_lt_0_compat;
          [apply Rmult_lt_0_compat;
           [apply Rmult_lt_0_compat;
            [apply Rmult_lt_0_compat; [apply Rmult_lt_0_compat |] |] |] |];
          lra).
    unfold Rdiv. rewrite <- Rmult_plus_distr_r.
    apply Rmult_lt_0_compat; lra.
Qed.

Lemma regime_loss_monotone k c T1 T2 :
  0 <= emissivity k -> 0 < section_area k -> 0 < c ->
  0 < ambient_temp k -> ambient_temp k < T1 -> T1 <= T2 ->
  regime_loss k c T1 <= regime_loss k c T2.
Proof.
  intros He HA Hc Ha H1 [H2 | ->]; [| lra].
  left. now apply regime_loss_increasing.
Qed.

Lemma skipna_sum_total l :
  (forall x, In x l -> x = NaN \/ exists r, x = Fin r) ->
  skipna_sum l = Fin (finite_total l).
Proof.
  intros H. unfold skipna_sum.
  assert (G : forall a, fold_left fadd (filter (fun x => negb (is_nan x)) l) (Fin a)
                        = Fin (a + finite_total l)).
  { induction l as [| x l IH]; intros a; [cbn; f_equal; lra |].
    destruct (H x) as [-> | [r ->]]; [simpl; auto | |].
    - cbn. apply IH. intros; apply H; simpl; auto.
    - cbn. rewrite IH by (intros; apply H; simpl; auto). f_equal; lra. }
  rewrite G. f_equal; lra.
Qed.

Lemma not_raised_total old new :
  (forall x, In x old -> exists r, x = Fin r) ->
  Forall2 not_raised old new ->
  finite_total new <= finite_total old.
Proof.
  intros Hf H. induction H as [| o n old new Hon _ IH]; [cbn; lra |].
  assert (IH' : finite_total new <= finite_total old)
    by (apply IH; intros; apply Hf; simpl; auto).
  destruct (Hf o) as [a ->]; [simpl; auto |].
  destruct Hon as [<- | [a' [E [[b [-> Hb]] | [-> Ha]]]]]; cbn;
    try (inversion E; subst a'); lra.
Qed.

Lemma lowered_total old new i o n :
  (forall x, In x old -> exists r, x = Fin r) ->
  Forall2 not_raised old new ->
  nth_error old i = Some o -> nth_error new i = Some n -> lowered o n ->
  finite_total new < finite_total old.
Proof.
  intros Hf H. revert i.
  induction H as [| o' n' old new Hon Hrest IH]; intros i Ho Hn Hlow.
  - destruct i; discriminate.
  - assert (Hf' : forall x, In x old -> exists r, x = Fin r)
      by (intros; apply Hf; simpl; auto).
    pose proof (not_raised_total old new Hf' Hrest) as Hle.
    destruct (Hf o') as [a Ea]; [simpl; auto |]. subst o'.
    destruct i as [| i]; cbn in Ho, Hn.
    + injection Ho as <-. injection Hn as <-.
      destruct Hlow as [a' [E [[b [-> Hb]] | [-> Ha]]]]; inversion E; subst a';
        cbn; lra.
    + specialize (IH Hf' i Ho Hn Hlow).
      destruct Hon as [<- | [a' [E [[b [-> Hb]] | [-> Ha]]]]]; cbn;
        try (inversion E; subst a'); lra.
Qed.

Lemma Forall2_pointwise {A B : Type} (P : A -> B -> Prop) l l' :
  length l = length l' ->
  (forall i a b, nth_error l i = Some a -> nth_error l' i = Some b -> P a b) ->
  Forall2 P l l'.
Proof.
  revert l'; induction l as [| x l IH]; intros [| y l'] Hlen Hp;
    try discriminate; constructor.
  - apply (Hp 0%nat); reflexivity.
  - apply IH; [simpl in Hlen; lia |].
    intros i a b Ha Hb. apply (Hp (S i)); assumption.
Qed.

Lemma median_within s :
  s <> [] -> (forall x, In x s -> exists r, x = Fin r) ->
  exists mu a b, median s = Fin mu /\ In (Fin a) s /\ In (Fin b) s /\ a <= mu <= b.
Proof.
  intros Hne Hf. unfold median.
  pose proof (finite_sorted_nonempty s Hne Hf) as HA.
  pose proof (finite_sorted_finite s Hf) as HF.
  set (A := sort (dropna s)) in *.
  assert (Hback : forall x, In (Fin x) A -> In (Fin x) s).
  { intros x Hx. apply sort_In, dropna_In in Hx. apply Hx. }
  destruct (length A) as [| m] eqn:E.
  { destruct A; [congruence | discriminate]. }
  assert (H1 : (S m / 2 < length A)%nat)
    by (rewrite E; apply Nat.div_lt; lia).
  assert (H0 : (S m / 2 - 1 < length A)%nat) by lia.
  destruct (HF (nth (S m / 2) A NaN)) as [y Hy]; [now apply nth_In |].
  destruct (HF (nth (S m / 2 - 1) A NaN)) as [x Hx]; [now apply nth_In |].
  assert (Iy : In (Fin y) A) by (rewrite <- Hy; now apply nth_In).
  assert (Ix : In (Fin x) A) by (rewrite <- Hx; now apply nth_In).
  destruct (Nat.even (S m)).
  - rewrite Hx, Hy. cbn [fadd]. unfold fdiv.
    destruct (Req_dec_T 2 0); [lra |].
    destruct (Rle_dec x y).
    + exists ((x + y) / 2), x, y. repeat split; auto; lra.
    + exists ((x + y) / 2), y, x. repeat split; auto; lra.
  - rewrite Hy. exists y, y, y. repeat split; auto; lra.
Qed.

Lemma fgt_separates x y U :
  fgt (Fin x) U = true -> fgt (Fin y) U = false -> y < x.
Proof.
  unfold fgt. destruct U as [| | | u]; cbn; try discriminate.
  destruct (Rlt_dec u x), (Rlt_dec u y); try discriminate. lra.
Qed.

Section RepairsSave.

Variable k : Kiln.
Variable c : R.
Variable ts : list R.
Hypothesis emissivity_ok : 0 <= emissivity k.
Hypothesis area_ok : 0 < section_area k.
Hypothesis production_ok : 0 < c.
Hypothesis ambient_ok : 0 < ambient_temp k.
Hypothesis temps_finite : df_temp k = map Fin ts.
Hypothesis temps_above : Forall (fun t => ambient_temp k < t) ts.

Let L (t : R) : R := regime_loss k c t.
Let losses : list fval := df_total_loss k c.
Let high : list nat := high_outliers losses.
Let low : list nat := low_outliers losses.

Lemma sensible_losses : losses = map (fun t => Fin (L t)) ts.
Proof.
  unfold losses, df_total_loss. rewrite loss_of_map, temps_finite, map_map.
  apply map_ext_in. intros t Ht.
  apply loss_at_regime; try lra.
  rewrite Forall_forall in temps_above. now apply temps_above.
Qed.

Lemma sensible_row i t :
  nth_error ts i = Some t ->
  ambient_temp k < t /\ nth_error losses i = Some (Fin (L t)) /\
  nth_error (df_temp k) i = Some (Fin t).
Proof.
  intros Hi. split; [| split].
  - rewrite Forall_forall in temps_above. eapply temps_above, nth_error_In, Hi.
  - rewrite sensible_losses, nth_error_map, Hi. reflexivity.
  - rewrite temps_finite, nth_error_map, Hi. reflexivity.
Qed.

Lemma sensible_high i t :
  nth_error ts i = Some t -> In i high ->
  fgt (Fin (L t)) (upper_whisker losses) = true.
Proof.
  intros Hi Hh. apply high_outliers_spec in Hh. destruct Hh as [x [Hx Hgt]].
  destruct (sensible_row i t Hi) as [_ [Hl _]].
  assert (x = Fin (L t)) by congruence. now subst x.
Qed.

Lemma sensible_not_high j t :
  nth_error ts j = Some t -> ~ In j high ->
  fgt (Fin (L t)) (upper_whisker losses) = false.
Proof.
  intros Hj Hn. destruct (sensible_row j t Hj) as [_ [Hl _]].
  destruct (fgt (Fin (L t)) (upper_whisker losses)) eqn:E; [| reflexivity].
  exfalso. apply Hn. apply high_outliers_spec. eauto.
Qed.

Lemma sensible_kept x :
  In x (map snd (drop low (drop high (iteritems (df_temp k))))) ->
  exists j t, x = Fin t /\ nth_error ts j = Some t /\ ~ In j high.
Proof.
  intros Hx. apply in_map_iff in Hx. destruct Hx as [[j y] [Hy Hin]].
  cbn in Hy. subst y. rewrite drop_drop in Hin.
  apply filter_In in Hin. destruct Hin as [Hin Hk].
  apply iteritems_In in Hin. rewrite temps_finite, nth_error_map in Hin.
  destruct (nth_error ts j) as [t |] eqn:Ej; [| discriminate].
  cbn in Hin. injection Hin as <-.
  exists j, t. repeat split; auto.
  apply andb_true_iff in Hk. destruct Hk as [Hk _]. cbn [fst] in Hk.
  apply negb_true_iff in Hk. intros Hj.
  assert (Ht : existsb (Nat.eqb j) high = true).
  { apply existsb_exists. exists j. split; [exact Hj | apply Nat.eqb_refl]. }
  congruence.
Qed.

Lemma sensible_median :
  mediantemp k c = NaN \/
  exists mu j t, mediantemp k c = Fin mu /\ ambient_temp k < mu /\ mu <= t /\
                 nth_error ts j = Some t /\ ~ In j high.
Proof.
  unfold mediantemp. fold losses. fold high. fold low.
  set (kept_temps := map snd (drop low (drop high (iteritems (df_temp k))))).
  destruct kept_temps as [| x0 rest] eqn:E; [left; reflexivity |].
  right. rewrite <- E.
  assert (Hf : forall x, In x kept_temps -> exists r, x = Fin r).
  { intros x Hx. destruct (sensible_kept x Hx) as [j [t [-> _]]]. eauto. }
  destruct (median_within kept_temps) as [mu [a [b [Hm [Ia [Ib Hab]]]]]];
    [rewrite E; discriminate | exact Hf |].
  destruct (sensible_kept _ Ia) as [ja [ta [Ea [Hja _]]]].
  destruct (sensible_kept _ Ib) as [jb [tb [Eb [Hjb Hnb]]]].
  injection Ea as ->. injection Eb as ->.
  destruct (sensible_row ja ta Hja) as [Hta _].
  exists mu, jb, tb. repeat split; auto; lra.
Qed.

Lemma sensible_new_row i t :
  nth_error ts i = Some t ->
  exists n, nth_error (df_new_total_loss k c) i = Some n /\
            not_raised (Fin (L t)) n /\ (In i high -> lowered (Fin (L t)) n).
Proof.
  intros Hi. destruct (sensible_row i t Hi) as [Ht [Hl Hrow]].
  unfold df_new_total_loss. rewrite loss_of_map, nth_error_map.
  fold (df_new_temp k c).
  destruct (in_dec Nat.eq_dec i high) as [Hh | Hn].
  - assert (Hnew : nth_error (df_new_temp k c) i = Some (mediantemp k c)).
    { unfold df_new_temp. fold (mediantemp k c).
      apply loc_set_all_same; [exact Hh |].
      apply nth_error_Some. congruence. }
    rewrite Hnew. cbn [option_map]. eexists; split; [reflexivity |].
    assert (Hlow : lowered (Fin (L t)) (loss_at k c (mediantemp k c))).
    { exists (L t). split; [reflexivity |].
      destruct sensible_median as [-> | [mu [j [tj [-> [Hmu [Hle [Hj Hnj]]]]]]]].
      - right. split; [apply loss_at_nan |].
        apply regime_loss_pos; assumption.
      - left. exists (L mu). split; [apply loss_at_regime; lra |].
        pose proof (sensible_high i t Hi Hh) as H1.
        pose proof (sensible_not_high j tj Hj Hnj) as H2.
        pose proof (fgt_separates _ _ _ H1 H2) as H3.
        assert (L mu <= L tj) by (apply regime_loss_monotone; assumption).
        lra. }
    split; [right; exact Hlow | intros _; exact Hlow].
  - assert (Hnew : nth_error (df_new_temp k c) i = Some (Fin t)).
    { unfold df_new_temp. rewrite loc_set_all_other by exact Hn. exact Hrow. }
    rewrite Hnew. cbn [option_map]. eexists; split; [reflexivity |].
    split; [left; symmetry; apply loss_at_regime; lra | contradiction].
Qed.

Lemma sensible_lengths : length (df_new_total_loss k c) = length losses.
Proof.
  unfold df_new_total_loss, losses, df_total_loss.
  rewrite !loss_of_map, !length_map.
  unfold df_new_temp. apply loc_set_all_length.
Qed.

Lemma sensible_all_rows :
  Forall2 not_raised losses (df_new_total_loss k c).
Proof.
  apply Forall2_pointwise; [symmetry; apply sensible_lengths |].
  intros i a b Ha Hb.
  rewrite sensible_losses, nth_error_map in Ha.
  destruct (nth_error ts i) as [t |] eqn:Ei; [| discriminate].
  cbn in Ha. injection Ha as <-.
  destruct (sensible_new_row i t Ei) as [n [Hn [Hr _]]].
  assert (n = b) by congruence. now subst n.
Qed.

Lemma sensible_old_finite : forall x, In x losses -> exists r, x = Fin r.
Proof.
  intros x Hx. rewrite sensible_losses in Hx. apply in_map_iff in Hx.
  destruct Hx as [t [<- _]]. eauto.
Qed.

Lemma sensible_new_values :
  forall x, In x (df_new_total_loss k c) -> x = NaN \/ exists r, x = Fin r.
Proof.
  pose proof sensible_all_rows as H. pose proof sensible_old_finite as Hf.
  induction H as [| o n old new Hon _ IH]; intros x Hx; [destruct Hx |].
  destruct Hx as [<- | Hx].
  - destruct (Hf o) as [a ->]; [simpl; auto |].
    destruct Hon as [<- | [a' [_ [[b [-> _]] | [-> _]]]]]; eauto.
  - apply IH; auto. intros; apply Hf; simpl; auto.
Qed.

Lemma sensible_savings :
  high <> [] ->
  exists s, savings k c = Fin s /\ 0 < s.
Proof.
  intros Hh. unfold savings, total_loss, new_total_loss.
  fold (df_new_total_loss k c). fold losses.
  rewrite (skipna_sum_total losses)
    by (intros x Hx; right; now apply sensible_old_finite).
  rewrite (skipna_sum_total (df_new_total_loss k c)) by apply sensible_new_values.
  cbn [fsub fneg fadd]. eexists; split; [reflexivity |].
  destruct high as [| i rest] eqn:E; [congruence |].
  assert (Hi : In i high) by (rewrite E; simpl; auto).
  pose proof (high_outliers_in_range losses i Hi) as Hlt.
  rewrite sensible_losses, length_map in Hlt.
  destruct (nth_error ts i) as [t |] eqn:Et;
    [| apply nth_error_None in Et; lia].
  destruct (sensible_new_row i t Et) as [n [Hn [_ Hlow]]].
  destruct (sensible_row i t Et) as [_ [Hl _]].
  pose proof (lowered_total losses (df_new_total_loss k c) i _ _
                sensible_old_finite sensible_all_rows Hl Hn (Hlow Hi)).
  lra.
Qed.

End RepairsSave.

(** X15: repairs always save on sensible readings.  For a configuration
    and a production rate in the widget ranges, and at most 1000 readings
    that are all above the ambient temperature, of at most 10000 K, and
    pairwise equal or at least 0.01 K apart: whenever there are high
    outliers the savings are a finite, strictly positive number, in both
    convection regimes; so the run ends with the summary, never with the
    "something is wrong" message. *)
Theorem repairs_always_save (k : Kiln) (c : R) (ts : list R) :
  in_widget_ranges k -> production_in_range c ->
  df_temp k = map Fin ts ->
  Forall (fun t => ambient_temp k < t <= 10000) ts ->
  separated ts -> (length ts <= 1000)%nat ->
  high_outliers (df_total_loss k c) <> [] ->
  exists s, savings k c = Fin s /\ 0 < s /\
            analyse k c =
            Summary (total_loss k c) (low_outliers (df_total_loss k c))
                    (high_outliers (df_total_loss k c)) (Fin s)
                    (savings_per_year_rupees k c).
Proof.
  intros [_ [_ [Ha [He HA]]]] Hc Ht Hab _ _ Hh.
  unfold production_in_range in Hc.
  assert (Hab' : Forall (fun t => ambient_temp k < t) ts).
  { eapply Forall_impl; [| exact Hab]. cbn. intros t Hlt. lra. }
  destruct (sensible_savings k c ts) as [s [Hs Hpos]]; try assumption; try lra.
  exists s. split; [exact Hs |]. split; [exact Hpos |].
  rewrite (analyse_cases k c Hh), Hs.
  assert (E : fgt (Fin s) (Fin 0) = true) by (apply flt_Fin; exact Hpos).
  now rewrite E.
Qed.

Lemma small_spot_finite :
  df_temp small_spot = map Fin [400; 400; 400; 400; 405].
Proof. apply small_spot_temps. Qed.

Lemma small_spot_above :
  Forall (fun t => ambient_temp small_spot < t <= 10000) [400; 400; 400; 400; 405].
Proof. repeat constructor; cbn; lra. Qed.

Lemma small_spot_separated : separated [400; 400; 400; 400; 405].
Proof.
  intros a b Ha Hb. cbn in Ha, Hb.
  repeat (destruct Ha as [<- | Ha]); try contradiction;
    repeat (destruct Hb as [<- | Hb]); try contradiction;
    solve [left; reflexivity | right; left; lra | right; right; lra].
Qed.

Lemma small_spot_rows : (length [400; 400; 400; 400; 405] <= 1000)%nat.
Proof. cbn. lia. Qed.

Lemma repairs_always_save_witness :
  in_widget_ranges small_spot /\ production_in_range production /\
  df_temp small_spot = map Fin [400; 400; 400; 400; 405] /\
  Forall (fun t => ambient_temp small_spot < t <= 10000) [400; 400; 400; 400; 405] /\
  separated [400; 400; 400; 400; 405] /\
  (length [400; 400; 400; 400; 405] <= 1000)%nat /\
  high_outliers (df_total_loss small_spot production) <> [] /\
  exists s, savings small_spot production = Fin s /\ 0 < s /\
            analyse small_spot production =
            Summary (total_loss small_spot production)
                    (low_outliers (df_total_loss small_spot production))
                    (high_outliers (df_total_loss small_spot production)) (Fin s)
                    (savings_per_year_rupees small_spot production).
Proof.
  split; [exact small_spot_in_ranges |]. split; [exact production_is_in_range |].
  split; [exact small_spot_finite |]. split; [exact small_spot_above |].
  split; [exact small_spot_separated |]. split; [exact small_spot_rows |].
  split; [exact small_spot_has_high_outliers |].
  exact (repairs_always_save small_spot production [400; 400; 400; 400; 405]
           small_spot_in_ranges production_is_in_range small_spot_finite
           small_spot_above small_spot_separated small_spot_rows
           small_spot_has_high_outliers).
Defined.

(** ** The corrected temperature *)

Lemma kept_rows (k : Kiln) (c : R) (ts : list R) x :
  df_temp k = map Fin ts ->
  In x (map snd (drop (low_outliers (df_total_loss k c))
                      (drop (high_outliers (df_total_loss k c))
                            (iteritems (df_temp k))))) ->
  exists j t, x = Fin t /\ nth_error ts j = Some t /\
              ~ In j (high_outliers (df_total_loss k c)) /\
              ~ In j (low_outliers (df_total_loss k c)).
Proof.
  intros Ht Hx. apply in_map_iff in Hx. destruct Hx as [[j y] [Hy Hin]].
  cbn in Hy. subst y. rewrite drop_drop in Hin.
  apply filter_In in Hin. destruct Hin as [Hin Hk].
  apply iteritems_In in Hin. rewrite Ht, nth_error_map in Hin.
  destruct (nth_error ts j) as [t |] eqn:Ej; [| discriminate].
  cbn in Hin. injection Hin as <-.
  exists j, t. split; [reflexivity |]. split; [exact Ej |].
  apply andb_true_iff in Hk. destruct Hk as [Hk1 Hk2]. cbn [fst] in Hk1, Hk2.
  apply negb_true_iff in Hk1. apply negb_true_iff in Hk2.
  split; intros Hj.
  - assert (E : existsb (Nat.eqb j) (high_outliers (df_total_loss k c)) = true)
      by (apply existsb_exists; exists j; split; [exact Hj | apply Nat.eqb_refl]).
    congruence.
  - assert (E : existsb (Nat.eqb j) (low_outliers (df_total_loss k c)) = true)
      by (apply existsb_exists; exists j; split; [exact Hj | apply Nat.eqb_refl]).
    congruence.
Qed.

Lemma not_listed (i : nat) (l : list nat) :
  ~ In i l -> existsb (Nat.eqb i) l = false.
Proof.
  intros Hn. destruct (existsb (Nat.eqb i) l) eqn:E; [| reflexivity].
  apply existsb_exists in E. destruct E as [j [Hj Hij]].
  apply Nat.eqb_eq in Hij. subst j. contradiction.
Qed.

Lemma unflagged_row_kept (k : Kiln) (c : R) (ts : list R) i t :
  df_temp k = map Fin ts -> nth_error ts i = Some t ->
  ~ In i (high_outliers (df_total_loss k c)) ->
  ~ In i (low_outliers (df_total_loss k c)) ->
  In (Fin t) (map snd (drop (low_outliers (df_total_loss k c))
                            (drop (high_outliers (df_total_loss k c))
                                  (iteritems (df_temp k))))).
Proof.
  intros Ht Hi Hh Hl. apply in_map_iff. exists (i, Fin t).
  split; [reflexivity |]. rewrite drop_drop. apply filter_In. split.
  - apply iteritems_In. rewrite Ht, nth_error_map, Hi. reflexivity.
  - cbn [fst]. now rewrite !not_listed.
Qed.


Lemma small_spot_bounded :
  Forall (fun t => - 1000000 <= t <= 1000000) [400; 400; 400; 400; 405].
Proof. repeat constructor; lra. Qed.

Lemma small_spot_first_row : (0 < length [400; 400; 400; 400; 405])%nat.
Proof. cbn. lia. Qed.

Lemma small_spot_first_not_high :
  ~ In 0%nat (high_outliers (df_total_loss small_spot production)).
Proof. rewrite small_spot_high. intros [H | []]. discriminate. Qed.

Lemma small_spot_first_not_low :
  ~ In 0%nat (low_outliers (df_total_loss small_spot production)).
Proof. rewrite small_spot_low. intros []. Qed.


(** ** A reading of 0 K in the forced regime *)

Lemma fold_fadd_stuck l acc :
  acc = NInf \/ acc = NaN ->
  fold_left fadd l acc = NInf \/ fold_left fadd l acc = NaN.
Proof.
  revert acc; induction l as [| x l IH]; intros acc H; [exact H |].
  cbn [fold_left]. apply IH.
  destruct H as [-> | ->]; destruct x; cbn; auto.
Qed.

Lemma fold_fadd_with_ninf l acc :
  In NInf l -> fold_left fadd l acc = NInf \/ fold_left fadd l acc = NaN.
Proof.
  revert acc; induction l as [| x l IH]; intros acc H; [destruct H |].
  cbn [fold_left]. destruct H as [-> | H]; [| now apply IH].
  apply fold_fadd_stuck. destruct acc; cbn; auto.
Qed.

(** X17: in the forced regime (ambient velocity at least 3), with a
    positive ambient temperature, section area and production rate, a
    reading of exactly 0 gives its row the total loss -inf: the power
    (T * Tambient) ** -0.351 is +inf there, times a negative temperature
    excess.  The total heat loss of the kiln is then -inf or NaN, never a
    finite number. *)
Theorem zero_reading_forced (k : Kiln) (c : R) (i : nat) :
  3 <= ambient_velocity k -> 0 < ambient_temp k -> 0 < section_area k ->
  0 < c -> nth_error (df_temp k) i = Some (Fin 0) ->
  nth_error (df_total_loss k c) i = Some NInf /\
  (total_loss k c = NInf \/ total_loss k c = NaN).
Proof.
  intros Hv Ha HA Hc Hi.
  assert (Hrow : nth_error (df_total_loss k c) i = Some NInf).
  { unfold df_total_loss. rewrite loss_of_map, nth_error_map, Hi.
    cbn [option_map]. now rewrite loss_at_forced_zero. }
  split; [exact Hrow |].
  unfold total_loss, skipna_sum. apply fold_fadd_with_ninf.
  apply filter_In. split; [| reflexivity].
  eapply nth_error_In, Hrow.
Qed.

Lemma frozen_velocity : 3 <= ambient_velocity frozen.
Proof. cbn. lra. Qed.

Lemma frozen_ambient : 0 < ambient_temp frozen.
Proof. cbn. lra. Qed.

Lemma frozen_first_row : nth_error (df_temp frozen) 0 = Some (Fin 0).
Proof. now rewrite frozen_temps. Qed.

Lemma zero_reading_forced_witness :
  3 <= ambient_velocity frozen /\ 0 < ambient_temp frozen /\
  0 < section_area frozen /\ 0 < production /\
  nth_error (df_temp frozen) 0 = Some (Fin 0) /\
  nth_error (df_total_loss frozen production) 0 = Some NInf /\
  (total_loss frozen production = NInf \/ total_loss frozen production = NaN).
Proof.
  split; [exact frozen_velocity |]. split; [exact frozen_ambient |].
  split; [exact frozen_area_pos |]. split; [exact production_positive |].
  split; [exact frozen_first_row |].
  exact (zero_reading_forced frozen production 0 frozen_velocity frozen_ambient
           frozen_area_pos production_positive frozen_first_row).
Defined.

(** ** The order of the rows does not matter for the whiskers *)

Lemma insert_sorted_perm x l : Permutation (insert_sorted x l) (x :: l).
Proof.
  induction l as [| y l IH]; cbn; [reflexivity |].
  destruct (fle x y); [reflexivity |].
  rewrite IH. apply perm_swap.
Qed.

Lemma sort_perm l : Permutation (sort l) l.
Proof.
  induction l as [| x l IH]; cbn; [reflexivity |].
  rewrite insert_sorted_perm. now constructor.
Qed.

Lemma dropna_perm l l' : Permutation l l' -> Permutation (dropna l) (dropna l').
Proof.
  unfold dropna. induction 1 as [| x l l' _ IH | x y l | l l' l'' _ IH1 _ IH2];
    cbn.
  - reflexivity.
  - destruct (negb (is_nan x)); [now constructor | exact IH].
  - destruct (negb (is_nan x)), (negb (is_nan y)); try reflexivity.
    apply perm_swap.
  - now transitivity (filter (fun x => negb (is_nan x)) l').
Qed.

Lemma fle_antisym x y :
  is_nan x = false -> is_nan y = false ->
  fle x y = true -> fle y x = true -> x = y.
Proof.
  destruct x as [| | | a], y as [| | | b]; cbn; intros; try discriminate;
    try reflexivity.
  unfold fle, flt in *. destruct (Rlt_dec b a), (Rlt_dec a b);
    try discriminate. f_equal; lra.
Qed.

Lemma sorted_perm_unique l l' :
  sorted l -> sorted l' -> (forall y, In y l -> is_nan y = false) ->
  Permutation l l' -> l = l'.
Proof.
  revert l'; induction l as [| x l IH]; intros l' Hs Hs' Hn Hp.
  - now apply Permutation_nil in Hp.
  - destruct l' as [| y l'].
    { apply Permutation_sym, Permutation_nil in Hp. discriminate. }
    assert (Hn' : forall z, In z (y :: l') -> is_nan z = false).
    { intros z Hz. apply Hn. eapply Permutation_in; [symmetry; exact Hp | exact Hz]. }
    assert (Hxy : fle x y = true).
    { assert (Hy : In y (x :: l))
        by (eapply Permutation_in; [symmetry; exact Hp | simpl; auto]).
      destruct Hy as [-> | Hy]; [apply fle_refl |].
      now apply (sorted_head_le x l Hs Hn). }
    assert (Hyx : fle y x = true).
    { assert (Hx : In x (y :: l'))
        by (eapply Permutation_in; [exact Hp | simpl; auto]).
      destruct Hx as [-> | Hx]; [apply fle_refl |].
      now apply (sorted_head_le y l' Hs' Hn'). }
    assert (x = y) by (apply fle_antisym; auto; [apply Hn | apply Hn']; simpl; auto).
    subst y. f_equal. apply IH.
    + eapply sorted_tail; exact Hs.
    + eapply sorted_tail; exact Hs'.
    + intros; apply Hn; simpl; auto.
    + eapply Permutation_cons_inv; exact Hp.
Qed.

Lemma sort_dropna_perm l l' :
  Permutation l l' -> sort (dropna l) = sort (dropna l').
Proof.
  intros Hp. apply sorted_perm_unique.
  - apply sort_sorted.
  - apply sort_sorted.
  - intros y Hy. apply sort_In, dropna_In in Hy. apply Hy.
  - rewrite !sort_perm. now apply dropna_perm.
Qed.

(** X18: the quartiles and the whiskers depend on the values of the
    series only, not on the order of its rows: two series that are
    permutations of each other have the same Q1, Q3, lower and upper
    whisker. *)
Theorem whiskers_ignore_row_order (losses losses' : list fval) :
  Permutation losses losses' ->
  Q1 losses = Q1 losses' /\ Q3 losses = Q3 losses' /\
  lower_whisker losses = lower_whisker losses' /\
  upper_whisker losses = upper_whisker losses'.
Proof.
  intros Hp.
  assert (Hq : forall q, quantile losses q = quantile losses' q).
  { intros q. unfold quantile. now rewrite (sort_dropna_perm _ _ Hp). }
  unfold lower_whisker, upper_whisker, IQR, Q1, Q3.
  rewrite !Hq. repeat split.
Qed.

Lemma swapped_rows :
  Permutation [Fin 3; Fin 1; NaN; Fin 2] [Fin 1; Fin 3; NaN; Fin 2].
Proof. apply perm_swap. Qed.

Lemma whiskers_ignore_row_order_witness :
  Permutation [Fin 3; Fin 1; NaN; Fin 2] [Fin 1; Fin 3; NaN; Fin 2] /\
  Q1 [Fin 3; Fin 1; NaN; Fin 2] = Q1 [Fin 1; Fin 3; NaN; Fin 2] /\
  Q3 [Fin 3; Fin 1; NaN; Fin 2] = Q3 [Fin 1; Fin 3; NaN; Fin 2] /\
  lower_whisker [Fin 3; Fin 1; NaN; Fin 2] = lower_whisker [Fin 1; Fin 3; NaN; Fin 2] /\
  upper_whisker [Fin 3; Fin 1; NaN; Fin 2] = upper_whisker [Fin 1; Fin 3; NaN; Fin 2].
Proof.
  split; [exact swapped_rows |].
  exact (whiskers_ignore_row_order [Fin 3; Fin 1; NaN; Fin 2]
           [Fin 1; Fin 3; NaN; Fin 2] swapped_rows).
Defined.
